(** * saucectl: the image-runner orchestration of [internal/saucecloud]

    A shallow embedding of the suite-execution engine of saucectl
    (package [saucecloud], file imagerunner.go): the worker loop
    [runSuites], the per-attempt lifecycle [runSuite] with its polling
    loop [PollRun], the result aggregator [collectResults], the artifact
    collector [DownloadArtifacts], the pool constructor
    [createWorkerPool] and the entry point [RunProject].

    The remote backend, the clock, the file system and the cancellation
    signal are outside the program.  They are an abstract world [W]; the
    program reaches it through the methods of the Go interface
    [ImageRunner] and through a few runtime primitives, and every call
    on the Job Client is recorded in a log, so that statements such as
    "no call is made" or "exactly one stop call is made" are statements
    about that log. *)

From Stdlib Require Import ZArith String List Bool Lia.
From stdpp Require Import base option list strings gmap fin_maps.

Local Open Scope string_scope.
Local Open Scope list_scope.
Local Open Scope Z_scope.

(** ** Values of the Go program *)

(** [time.Duration] and the instants of [time.Time], in nanoseconds. *)
Definition Duration := Z.
Definition Instant := Z.

Definition Hour : Duration := 3600 * 1000000000.

(** Go's [int] on the 64-bit targets: wrap-around on overflow. *)
Definition wrap64 (z : Z) : Z := (z + 2 ^ 63) mod 2 ^ 64 - 2 ^ 63.

(** [t.Sub(u)] saturates at the bounds of [Duration]. *)
Definition sat64 (z : Z) : Z := Z.max (- 2 ^ 63) (Z.min (2 ^ 63 - 1) z).

Module errors.

(** The error values the engine builds or tests for.  [wrapError] is an
    error whose [Unwrap] method returns [cause], as the transport layer
    of a client produces around a context error. *)
Inductive error : Type :=
| DeadlineExceeded                       (* context.DeadlineExceeded *)
| Canceled                               (* context.Canceled *)
| ErrSuiteCancelled                      (* errors.New("suite cancelled") *)
| SuiteTimeoutError (Timeout : Duration)
| errorString (msg : string)             (* errors.New, fmt.Errorf *)
| wrapError (msg : string) (cause : error).

#[global] Instance error_eq_dec : EqDecision error.
Proof. unfold EqDecision, Decision. decide equality; solve_decision. Defined.

(** [errors.Is] on a non-nil error: the chain of [Unwrap] is searched
    for a value equal to the target. *)
Fixpoint chain_Is (err target : error) : bool :=
  bool_decide (err = target) ||
  match err with
  | wrapError _ cause => chain_Is cause target
  | _ => false
  end.

(** [errors.Is(err, target)] for a non-nil target; a nil [err] matches
    no such target. *)
Definition Is (err : option error) (target : error) : bool :=
  match err with
  | None => false
  | Some e => chain_Is e target
  end.

End errors.
Export errors.

(** ** Contexts

    The tree of [context.Context] values the engine builds.  The field
    [ctx] of the runner is [WithCancel Background]; every attempt derives
    a [WithTimeout] child from it. *)
Inductive Context : Type :=
| Background
| WithCancel (parent : Context)
| WithTimeout (parent : Context) (timeout : Duration).

#[global] Instance Context_eq_dec : EqDecision Context.
Proof. unfold EqDecision, Decision. decide equality; solve_decision. Defined.

(** [derived_from c a]: [c] is [a] or was derived from it, so the
    cancellation or expiry of [a] reaches [c]. *)
Fixpoint derived_from (c a : Context) : bool :=
  bool_decide (c = a) ||
  match c with
  | Background => false
  | WithCancel p => derived_from p a
  | WithTimeout p _ => derived_from p a
  end.

(** ** Package [imagerunner]

    The declarations of the package are not among the sources; the
    records below have the fields the engine reads and writes. *)

Record Auth := { User : string; Token : string }.

Record File := { Src : string; Dst : string }.

Record FileData := { Path : string; Data : string }.

Record EnvItem := { EnvName : string; EnvValue : string }.

(** A suite.  [Env] is a Go map: [None] is the nil map. *)
Record Suite := {
  Name : string;
  Image : string;
  ImagePullAuth : Auth;
  EntryPoint : string;
  Timeout : Duration;
  Files : list File;
  Artifacts : list string;
  Env : option (gmap string string)
}.

Record Container := { ContainerName : string; ContainerAuth : Auth }.

Record RunnerSpec := {
  SpecContainer : Container;
  SpecEntryPoint : string;
  SpecEnv : list EnvItem;
  SpecFiles : list FileData;
  SpecArtifacts : list string;
  SpecMetadata : gmap string string
}.

Record Runner := {
  ID : string;
  Status : string;
  TerminationReason : string
}.

(** The zero value [imagerunner.Runner{}]. *)
Definition zeroRunner : Runner :=
  {| ID := ""; Status := ""; TerminationReason := "" |}.

Definition setStatus (run : Runner) (s : string) : Runner :=
  {| ID := ID run; Status := s; TerminationReason := TerminationReason run |}.

(** Modelled from the spec: the state names of package [imagerunner]
    ([imagerunner.StateSucceeded], [imagerunner.StateCancelled]), which
    the spec lists as Pending/Running/Succeeded/Failed/Cancelled/TimedOut. *)
Definition StateSucceeded : string := "Succeeded".
Definition StateCancelled : string := "Cancelled".

(** ** Package [config]: the artifact settings of the project

    The package is not among the sources.  [Match] is the field the
    engine reads; the download mode and the directory are what the
    policy and the folder function of the package are given. *)

Inductive When := WhenNever | WhenAlways | WhenPass | WhenFail.

Record ArtifactDownload := {
  DownloadWhen : When;
  Match : list string;
  Directory : string
}.

(** Modelled from the spec: [config.ShouldDownloadArtifact] (package
    [config] is not among the sources).  The spec gives the policy as:
    a job id is present, the final status is not Cancelled, download is
    enabled in the configuration, and the configured download mode agrees
    with the pass/fail verdict handed in.  The third argument is the flag
    the aggregator computes as [res.status != StateCancelled]. *)
Definition ShouldDownloadArtifact (jobID : string) (passed notCancelled async : bool)
    (cfg : ArtifactDownload) : bool :=
  if bool_decide (jobID = "") || negb notCancelled || async then false
  else match DownloadWhen cfg with
       | WhenAlways => true
       | WhenPass => passed
       | WhenFail => negb passed
       | WhenNever => false
       end.

(** ** The runner and its results *)

Record Project := {
  Defaults : Suite;
  Suites : list Suite;
  ProjectArtifacts : ArtifactDownload
}.

(** A registered reporter is an opaque object; the model names it by a
    number and logs the calls made on it. *)
Definition Reporter := nat.

Record ImgRunner := {
  RunnerProject : Project;
  Reporters : list Reporter;
  ctx : Context
}.

Record execResult := {
  name : string;
  runID : string;
  status : string;
  err : option error;
  duration : Duration;
  startTime : Instant;
  endTime : Instant;
  attempts : Z
}.

(** What a reporter is given ([report.TestResult], with the fields the
    aggregator fills). *)
Record TestResult := {
  TRName : string;
  TRDuration : Duration;
  TRStartTime : Instant;
  TREndTime : Instant;
  TRStatus : string;
  TRAttempts : Z
}.


(** ** The world outside the program *)

(** The interface [ImageRunner] of the source: the Job Client.  A method
    takes the world to its answer and the world after the call. *)
Class ImageRunner (W : Type) : Type := {
  TriggerRun : Context → RunnerSpec → W → (Runner * option error) * W;
  GetStatus : Context → string → W → (Runner * option error) * W;
  StopRun : Context → string → W → option error * W;
  ListArtifacts : Context → string → W → (list string * option error) * W;
  DownloadArtifact : Context → string → string → string → W → option error * W
}.

(** What wakes the [select] of [PollRun]: the context or the ticker. *)
Inductive Wake := WakeDone | WakeTick.

(** The runtime the engine runs on: [ctx.Err()], the blocking [select]
    of the polling loop, the clock, [os.ReadFile], and
    [config.GetSuiteArtifactFolder], which creates the local directory
    of a suite. *)
Class Runtime (W : Type) : Type := {
  ctx_Err : Context → W → option error;
  select_wake : Context → W → Wake * W;
  time_Now : W → Instant * W;
  os_ReadFile : string → W → (string * option error) * W;
  GetSuiteArtifactFolder : string → ArtifactDownload → W → (string * option error) * W
}.

(** Pure functions of other packages: [glob.Glob] of
    github.com/ryanuber/go-glob, [imagerunner.Done], and the strict
    standard base64 encoder. *)
Class Library : Type := {
  glob_Glob : string → string → bool;
  imagerunner_Done : string → bool;
  base64_EncodeToString : string → string
}.

(** The log of the calls made on the Job Client and on the reporters. *)
Inductive Call : Type :=
| CallTriggerRun (c : Context) (spec : RunnerSpec)
| CallGetStatus (c : Context) (id : string)
| CallStopRun (c : Context) (id : string)
| CallListArtifacts (c : Context) (id : string)
| CallDownloadArtifact (c : Context) (id file dir : string).

Inductive ReporterCall : Type :=
| ReporterAdd (rep : Reporter) (t : TestResult)
| ReporterRender (rep : Reporter).

Definition is_TriggerRun (c : Call) : bool :=
  match c with CallTriggerRun _ _ => true | _ => false end.
Definition is_StopRun (c : Call) : bool :=
  match c with CallStopRun _ _ => true | _ => false end.

Definition count_calls (p : Call → bool) (l : list Call) : nat :=
  length (filter (λ c, p c = true) l).

Record State (W : Type) := mkState {
  world : W;
  calls : list Call;
  reports : list ReporterCall
}.
Arguments mkState {W} _ _ _.
Arguments world {W} _.
Arguments calls {W} _.
Arguments reports {W} _.

(** ** The monad of the engine: state, and [None] for a loop that is
    still waiting when the model stops following it. *)
Definition M (W A : Type) : Type := State W → option (A * State W).

#[global] Instance M_ret {W} : MRet (M W) := λ A a st, Some (a, st).
#[global] Instance M_bind {W} : MBind (M W) :=
  λ A B f m st, match m st with
                | Some (a, st') => f a st'
                | None => None
                end.

Definition waiting {W A} : M W A := λ _, None.

Definition liftW {W A} (f : W → A * W) : M W A :=
  λ st, let '(a, w) := f (world st) in Some (a, mkState w (calls st) (reports st)).

Definition readW {W A} (f : W → A) : M W A :=
  λ st, Some (f (world st), st).

Definition logCall {W} (c : Call) : M W unit :=
  λ st, Some (tt, mkState (world st) (calls st ++ [c]) (reports st)).

Definition logReport {W} (c : ReporterCall) : M W unit :=
  λ st, Some (tt, mkState (world st) (calls st) (reports st ++ [c])).

(** A call on the Job Client: logged, then answered by the world. *)
Definition client {W A} (c : Call) (f : W → A * W) : M W A :=
  _ ← logCall c; liftW f.

(** ** Default merging *)

(** [reflect.ValueOf(a).IsZero()] at the types [orDefault] is used at. *)
Class IsZero (T : Type) := isZero : T → bool.
#[global] Instance string_IsZero : IsZero string := λ s, bool_decide (s = "").
#[global] Instance Duration_IsZero : IsZero Duration := λ d, bool_decide (d = 0).
#[global] Instance Auth_IsZero : IsZero Auth :=
  λ a, bool_decide (User a = "") && bool_decide (Token a = "").

Definition orDefault {T} `{IsZero T} (a b : T) : T :=
  if isZero a then b else a.

(** [for k, v := range defaults.Env { suite.Env[k] = v }], after the nil
    map of the suite has been replaced by an empty one. *)
Definition mergeEnv (suiteEnv defaultsEnv : option (gmap string string))
    : option (gmap string string) :=
  let env := match suiteEnv with None => ∅ | Some m => m end in
  Some (map_fold (λ k v (acc : gmap string string), <[k:=v]> acc)
                 env (default ∅ defaultsEnv)).

(** The head of the loop of [runSuites], "Apply defaults". *)
Definition applyDefaults (defaults suite : Suite) : Suite :=
  {| Name := if bool_decide (Name defaults ≠ "")
             then Name defaults +:+ " " +:+ Name suite
             else Name suite;
     Image := orDefault (Image suite) (Image defaults);
     ImagePullAuth := orDefault (ImagePullAuth suite) (ImagePullAuth defaults);
     EntryPoint := orDefault (EntryPoint suite) (EntryPoint defaults);
     Timeout := orDefault (Timeout suite) (Timeout defaults);
     Files := Files suite ++ Files defaults;
     Artifacts := Artifacts suite ++ Artifacts defaults;
     Env := mergeEnv (Env suite) (Env defaults) |}.

(** [mapEnv]: one item per key; Go ranges over a map in no fixed order,
    the model lists the keys in the order of [map_to_list]. *)
Definition mapEnv (env : option (gmap string string)) : list EnvItem :=
  (λ kv, {| EnvName := kv.1; EnvValue := kv.2 |}) <$> map_to_list (default ∅ env).

(** ** The engine *)

Section Engine.

Context {W : Type} `{!ImageRunner W} `{!Runtime W} `{!Library}.

Definition readFile (path : string) : M W (string * option error) :=
  '(bytes, err) ← liftW (os_ReadFile path);
  match err with
  | Some e => mret ("", Some e)
  | None => mret (base64_EncodeToString bytes, None)
  end.

(** The loop of [mapFiles]; [items] is the slice built so far. *)
Fixpoint mapFiles_loop (files : list File) (items : list FileData)
    : M W (list FileData * option error) :=
  match files with
  | [] => mret (items, None)
  | f :: rest =>
      '(data, err) ← readFile (Src f);
      match err with
      | Some e => mret (items, Some e)
      | None => mapFiles_loop rest (items ++ [{| Path := Dst f; Data := data |}])
      end
  end.

Definition mapFiles (files : list File) : M W (list FileData * option error) :=
  mapFiles_loop files [].

(** [PollRun].  Every turn of the loop blocks in the [select]; [fuel]
    bounds the number of turns the model follows. *)
Fixpoint PollRun (fuel : nat) (c : Context) (id lastStatus : string)
    : M W (Runner * option error) :=
  match fuel with
  | O => waiting
  | S fuel' =>
      wake ← liftW (select_wake c);
      match wake with
      | WakeDone =>
          e ← readW (ctx_Err c);
          mret (zeroRunner, e)
      | WakeTick =>
          '(r, err) ← client (CallGetStatus c id) (GetStatus c id);
          match err with
          | Some e => mret (r, Some e)
          | None =>
              let lastStatus' :=
                if bool_decide (Status r ≠ lastStatus) then Status r else lastStatus in
              if imagerunner_Done (Status r) then mret (r, None)
              else PollRun fuel' c id lastStatus'
          end
      end
  end.

Definition specOf (suite : Suite) (files : list FileData) : RunnerSpec :=
  {| SpecContainer :=
       {| ContainerName := Image suite;
          ContainerAuth := {| User := User (ImagePullAuth suite);
                              Token := Token (ImagePullAuth suite) |} |};
     SpecEntryPoint := EntryPoint suite;
     SpecEnv := mapEnv (Env suite);
     SpecFiles := files;
     SpecArtifacts := Artifacts suite;
     SpecMetadata := {[ "name" := Name suite ]} |}.

(** The timeout an attempt runs under: [24 * time.Hour] when the suite
    has none. *)
Definition attemptTimeout (suite : Suite) : Duration :=
  if Timeout suite <=? 0 then 24 * Hour else Timeout suite.

Definition failedError (suite : Suite) (run : Runner) : error :=
  if bool_decide (TerminationReason run ≠ "")
  then errorString ("suite '" +:+ Name suite +:+ "' failed: " +:+ TerminationReason run)
  else errorString ("suite '" +:+ Name suite +:+ "' failed").

(** [runSuite]: one attempt.  [defer cancel()] releases the context of
    the attempt and has no effect the engine can see.  [ctx.Err()] is
    read once for the two tests that follow a call: nothing happens
    between them. *)
Definition runSuite (fuel : nat) (r : ImgRunner) (suite : Suite)
    : M W (Runner * option error) :=
  let run := zeroRunner in
  '(files, err) ← mapFiles (Files suite);
  match err with
  | Some e => mret (run, Some e)
  | None =>
      let timeout := attemptTimeout suite in
      let c := WithTimeout (ctx r) timeout in
      '(runner, err) ← client (CallTriggerRun c (specOf suite files))
                              (TriggerRun c (specOf suite files));
      cerr ← readW (ctx_Err c);
      if Is err DeadlineExceeded && bool_decide (cerr ≠ None)
      then mret (setStatus run StateCancelled, Some (SuiteTimeoutError timeout))
      else if Is err Canceled && bool_decide (cerr ≠ None)
      then mret (setStatus run StateCancelled, Some ErrSuiteCancelled)
      else match err with
      | Some e => mret (run, Some e)
      | None =>
          '(run, err) ← PollRun fuel c (ID runner) (Status runner);
          cerr ← readW (ctx_Err c);
          if Is err DeadlineExceeded && bool_decide (cerr ≠ None)
          then
            _ ← client (CallStopRun Background (ID runner))
                       (StopRun Background (ID runner));
            mret (setStatus run StateCancelled, Some (SuiteTimeoutError timeout))
          else if Is err Canceled && bool_decide (cerr ≠ None)
          then
            _ ← client (CallStopRun Background (ID runner))
                       (StopRun Background (ID runner));
            mret (setStatus run StateCancelled, Some ErrSuiteCancelled)
          else match err with
          | Some e => mret (run, Some e)
          | None =>
              if bool_decide (Status run ≠ StateSucceeded)
              then mret (run, Some (failedError suite run))
              else mret (run, None)
          end
      end
  end.

(** One turn of the loop of [runSuites]: the suite just received from
    the channel is merged with the defaults and run, and the result the
    worker then sends on the result channel is returned. *)
Definition runSuites_iter (fuel : nat) (r : ImgRunner) (suite : Suite)
    : M W execResult :=
  let suite := applyDefaults (Defaults (RunnerProject r)) suite in
  startTime ← liftW time_Now;
  cerr ← readW (ctx_Err (ctx r));
  if bool_decide (cerr ≠ None)
  then
    endTime ← liftW time_Now;
    now ← liftW time_Now;
    mret {| name := Name suite; runID := ""; status := StateCancelled;
            err := Some ErrSuiteCancelled; duration := sat64 (now - startTime);
            startTime := startTime; endTime := endTime; attempts := 0 |}
  else
    '(run, e) ← runSuite fuel r suite;
    endTime ← liftW time_Now;
    now ← liftW time_Now;
    mret {| name := Name suite; runID := ID run; status := Status run;
            err := e; duration := sat64 (now - startTime);
            startTime := startTime; endTime := endTime; attempts := 1 |}.

(** [runSuites] as one worker sees it: the suites it receives, in the
    order it receives them, and the results it sends, in the order it
    sends them. *)
Fixpoint runSuites (fuel : nat) (r : ImgRunner) (suites : list Suite)
    : M W (list execResult) :=
  match suites with
  | [] => mret []
  | suite :: rest =>
      res ← runSuites_iter fuel r suite;
      results ← runSuites fuel r rest;
      mret (res :: results)
  end.

(** ** Artifacts *)

(** The inner loop of [DownloadArtifacts]: the first pattern that
    matches [f] triggers the download and ends the loop ([break]); a
    failed download is logged and otherwise ignored. *)
Fixpoint download_first_match (r : ImgRunner) (runnerID f dir : string)
    (patterns : list string) : M W unit :=
  match patterns with
  | [] => mret tt
  | pattern :: rest =>
      if glob_Glob pattern f
      then
        _ ← client (CallDownloadArtifact (ctx r) runnerID f dir)
                   (DownloadArtifact (ctx r) runnerID f dir);
        mret tt
      else download_first_match r runnerID f dir rest
  end.

(** The outer loop of [DownloadArtifacts], over the listed files. *)
Fixpoint download_files (r : ImgRunner) (runnerID dir : string)
    (files : list string) : M W unit :=
  match files with
  | [] => mret tt
  | f :: rest =>
      _ ← download_first_match r runnerID f dir
            (Match (ProjectArtifacts (RunnerProject r)));
      download_files r runnerID dir rest
  end.

(** [DownloadArtifacts].  A failed listing is logged and the loop runs
    over whatever list came back with the error. *)
Definition DownloadArtifacts (r : ImgRunner) (runnerID suiteName : string) : M W unit :=
  '(dir, err) ← liftW (GetSuiteArtifactFolder suiteName
                         (ProjectArtifacts (RunnerProject r)));
  match err with
  | Some _ => mret tt
  | None =>
      '(files, _) ← client (CallListArtifacts (ctx r) runnerID)
                           (ListArtifacts (ctx r) runnerID);
      download_files r runnerID dir files
  end.

(** ** The result aggregator *)

Definition testResultOf (res : execResult) : TestResult :=
  {| TRName := name res; TRDuration := duration res;
     TRStartTime := startTime res; TREndTime := endTime res;
     TRStatus := status res; TRAttempts := attempts res |}.

Fixpoint addAll (reps : list Reporter) (t : TestResult) : M W unit :=
  match reps with
  | [] => mret tt
  | rep :: rest => _ ← logReport (ReporterAdd rep t); addAll rest t
  end.

Fixpoint renderAll (reps : list Reporter) : M W unit :=
  match reps with
  | [] => mret tt
  | rep :: rest => _ ← logReport (ReporterRender rep); renderAll rest
  end.

(** The body of the loop of [collectResults], after [res := <-results]:
    the verdict so far goes in, the updated verdict comes out. *)
Definition collect_one (r : ImgRunner) (res : execResult) (passed : bool) : M W bool :=
  let passed := if bool_decide (err res ≠ None) then false else passed in
  _ ← (if ShouldDownloadArtifact (runID res) passed
            (bool_decide (status res ≠ StateCancelled)) false
            (ProjectArtifacts (RunnerProject r))
       then DownloadArtifacts r (runID res) (name res)
       else mret tt);
  _ ← addAll (Reporters r) (testResultOf res);
  mret passed.

(** The loop of [collectResults] over the results that arrive on the
    channel, in the order they arrive.  The loop waits when the channel
    has nothing more to give; otherwise it returns the verdict, the
    progress counter and the results it has left on the channel.  The
    counters [i] and [inProgress] stay between 0 and [expected], an
    [int], so they are written without wrap-around. *)
Fixpoint collect_loop (r : ImgRunner) (results : list execResult)
    (i expected inProgress : Z) (passed : bool) {struct results}
    : M W (bool * Z * list execResult) :=
  if i <? expected then
    match results with
    | [] => waiting
    | res :: rest =>
        passed' ← collect_one r res passed;
        collect_loop r rest (i + 1) expected (inProgress - 1) passed'
    end
  else mret (passed, inProgress, results).

(** [collectResults]: the loop, then [stopProgress()] and the final
    rendering of every reporter. *)
Definition collectResults (r : ImgRunner) (results : list execResult) (expected : Z)
    : M W (bool * list execResult) :=
  '(passed, _, rest) ← collect_loop r results 0 expected expected true;
  _ ← renderAll (Reporters r);
  mret (passed, rest).

End Engine.

(** ** The worker pool *)

(** A buffered channel: its capacity and the values waiting in it. *)
Record chan (A : Type) := mkChan { cap : Z; buf : list A }.
Arguments mkChan {A} _ _.
Arguments cap {A} _.
Arguments buf {A} _.

(** [make(chan T, size)]: the runtime panics on a negative size ([None]).
    The ceiling the allocator puts on the size is outside the model. *)
Definition make_chan {A : Type} (size : Z) : option (chan A) :=
  if size <? 0 then None else Some (mkChan size []).

(** A worker goroutine is either at the head of its loop, about to
    receive a suite, or holds the result it is about to send. *)
Inductive worker : Type :=
| Receiving
| Sending (res : execResult).

Record Pool := mkPool {
  suitesCh : chan Suite;
  resultsCh : chan execResult;
  workers : list worker
}.

(** [for i := 0; i < ccy; i++ { go r.runSuites(suites, results) }];
    [n] bounds the number of turns. *)
Fixpoint launch (n : nat) (i ccy : Z) (ws : list worker) : list worker :=
  match n with
  | O => ws
  | S n' => if i <? ccy then launch n' (i + 1) ccy (ws ++ [Receiving]) else ws
  end.

(** [createWorkerPool]: the two channels and the workers started;
    [None] when a [make] panics.  [maxRetries+1] is computed on [int]. *)
Definition createWorkerPool (ccy maxRetries : Z) : option Pool :=
  suites ← make_chan (wrap64 (maxRetries + 1));
  results ← make_chan ccy;
  Some (mkPool suites results (launch (Z.to_nat ccy) 0 ccy [])).

(** ** [RunProject]: the goroutines and their channels

    [RunProject] runs three kinds of goroutines: the anonymous one that
    sends the suites of the project, the workers of the pool, and
    [RunProject] itself inside [collectResults].  They meet only at the
    two channels.  A schedule names the goroutine that moves next; a
    goroutine that is blocked at its channel does not move.  A move of a
    worker is one whole attempt, a move of the aggregator is the handling
    of one result.  The channels of [RunProject] have capacity 1, so
    every hand-off goes through the buffer. *)

Inductive goroutine : Type :=
| GoSubmit
| GoWorker (k : nat)
| GoMain.

Definition can_send {A : Type} (c : chan A) : bool :=
  Z.of_nat (length (buf c)) <? cap c.

Definition send {A : Type} (c : chan A) (a : A) : chan A :=
  mkChan (cap c) (buf c ++ [a]).

Section System.

Context {W : Type} `{!ImageRunner W} `{!Runtime W} `{!Library}.

(** The state of a run.  [taken] and [received] are histories: the
    suites the workers have received and the results the aggregator has
    received, in order. *)
Record Sys := mkSys {
  pending : list Suite;
  pool : Pool;
  col_i : Z;
  col_inProgress : Z;
  col_passed : bool;
  returned : option bool;
  state : State W;
  taken : list Suite;
  received : list execResult
}.

Definition step_submit (s : Sys) : Sys :=
  match pending s with
  | suite :: rest =>
      if can_send (suitesCh (pool s))
      then mkSys rest
             (mkPool (send (suitesCh (pool s)) suite) (resultsCh (pool s))
                     (workers (pool s)))
             (col_i s) (col_inProgress s) (col_passed s) (returned s) (state s)
             (taken s) (received s)
      else s
  | [] => s
  end.

Definition step_worker (fuel : nat) (r : ImgRunner) (k : nat) (s : Sys) : option Sys :=
  match workers (pool s) !! k with
  | Some Receiving =>
      match buf (suitesCh (pool s)) with
      | suite :: rest =>
          '(res, st') ← runSuites_iter fuel r suite (state s);
          Some (mkSys (pending s)
                  (mkPool (mkChan (cap (suitesCh (pool s))) rest) (resultsCh (pool s))
                          (<[k := Sending res]> (workers (pool s))))
                  (col_i s) (col_inProgress s) (col_passed s) (returned s) st'
                  (taken s ++ [suite]) (received s))
      | [] => Some s
      end
  | Some (Sending res) =>
      if can_send (resultsCh (pool s))
      then Some (mkSys (pending s)
                   (mkPool (suitesCh (pool s)) (send (resultsCh (pool s)) res)
                           (<[k := Receiving]> (workers (pool s))))
                   (col_i s) (col_inProgress s) (col_passed s) (returned s) (state s)
                   (taken s) (received s))
      else Some s
  | None => Some s
  end.

Definition step_main (r : ImgRunner) (expected : Z) (s : Sys) : option Sys :=
  match returned s with
  | Some _ => Some s
  | None =>
      if col_i s <? expected then
        match buf (resultsCh (pool s)) with
        | res :: rest =>
            '(passed', st') ← collect_one r res (col_passed s) (state s);
            Some (mkSys (pending s)
                    (mkPool (suitesCh (pool s)) (mkChan (cap (resultsCh (pool s))) rest)
                            (workers (pool s)))
                    (col_i s + 1) (col_inProgress s - 1) passed' None st'
                    (taken s) (received s ++ [res]))
        | [] => Some s
        end
      else
        '(_, st') ← renderAll (Reporters r) (state s);
        Some (mkSys (pending s) (pool s) (col_i s) (col_inProgress s) (col_passed s)
                (Some (col_passed s)) st' (taken s) (received s))
  end.

Definition step (fuel : nat) (r : ImgRunner) (expected : Z) (g : goroutine) (s : Sys)
    : option Sys :=
  match g with
  | GoSubmit => Some (step_submit s)
  | GoWorker k => step_worker fuel r k s
  | GoMain => step_main r expected s
  end.

Fixpoint run (fuel : nat) (r : ImgRunner) (expected : Z) (sched : list goroutine)
    (s : Sys) : option Sys :=
  match sched with
  | [] => Some s
  | g :: rest => s' ← step fuel r expected g s; run fuel r expected rest s'
  end.

(** The runner once [RunProject] has stored the cancellable root context
    in it. *)
Definition withRootCtx (r : ImgRunner) : ImgRunner :=
  {| RunnerProject := RunnerProject r; Reporters := Reporters r;
     ctx := WithCancel Background |}.

(** The run of [RunProject] under a schedule, from the creation of the
    pool on. *)
Definition RunProject_sys (fuel : nat) (sched : list goroutine) (r : ImgRunner) (w : W)
    : option Sys :=
  let r := withRootCtx r in
  let expected := Z.of_nat (length (Suites (RunnerProject r))) in
  p ← createWorkerPool 1 0;
  run fuel r expected sched
      (mkSys (Suites (RunnerProject r)) p 0 expected true None (mkState w [] []) [] []).

(** [RunProject]: the exit status and the error, once [collectResults]
    has returned under the schedule. *)
Definition RunProject (fuel : nat) (sched : list goroutine) (r : ImgRunner) (w : W)
    : option (Z * option error) :=
  s ← RunProject_sys fuel sched r w;
  passed ← returned s;
  Some (if negb passed then (1, None) else (0, None)).

End System.

(** ** The interrupt handler

    [registerInterruptOnSignal] starts a goroutine that receives from the
    signal channel for ever.  [r.cancel()] is one more thing the program
    does to the world. *)

Inductive Signal := Interrupt.

Class Signals (W : Type) : Type := {
  ctx_cancel : Context → W → W
}.

(** How the model leaves the handler: blocked at the channel, returned,
    or inside [os.Exit]. *)
Inductive handlerEnd : Type :=
| HandlerWaiting
| HandlerReturned
| HandlerExit (code : Z).

(** The string the handler hands to [println], line feeds included. *)
Definition stopNotice : string :=
  String (Ascii.ascii_of_nat 10)
    ("Stopping run. Cancelling all suites in progress... (press Ctrl-c again to exit without waiting)"
       +:+ String (Ascii.ascii_of_nat 10) "").

Section Interrupts.

Context {W : Type} `{!Runtime W} `{!Signals W}.

(** The loop of the handler over the values it receives; [None] is the
    nil a closed channel gives.  [out] is what has been printed. *)
Fixpoint interruptLoop (r : ImgRunner) (sigs : list (option Signal))
    (out : list string) (w : W) : handlerEnd * list string * W :=
  match sigs with
  | [] => (HandlerWaiting, out, w)
  | None :: _ => (HandlerReturned, out, w)
  | Some _ :: rest =>
      match ctx_Err (ctx r) w with
      | None => interruptLoop r rest (out ++ [stopNotice]) (ctx_cancel (ctx r) w)
      | Some _ => (HandlerExit 1, out, w)
      end
  end.

End Interrupts.

(** ** Notions for the statements

    Names for the states and the facts the properties below speak of. *)

Section Notions.

Context {W : Type} `{!ImageRunner W} `{!Runtime W} `{!Library}.

Implicit Types (st : State W) (r : ImgRunner) (suite : Suite) (s : @Sys W).

(** The context of an attempt on [suite]. *)
Definition attemptCtx r suite : Context :=
  WithTimeout (ctx r) (attemptTimeout suite).

(** The state after a call of [StopRun] on the job of [runner]. *)
Definition stopped (runner : Runner) st : State W :=
  mkState (StopRun Background (ID runner) (world st)).2
          (calls st ++ [CallStopRun Background (ID runner)]) (reports st).

(** The attempt on [suite] that starts in [st] has read its files and
    its submission was answered with [(runner, serr)], in state [st2]. *)
Definition submitted r suite st (runner : Runner) (serr : option error) (st2 : State W)
    : Prop :=
  ∃ files st1,
    mapFiles (Files suite) st = Some ((files, None), st1) ∧
    (TriggerRun (attemptCtx r suite) (specOf suite files) (world st1)).1 = (runner, serr) ∧
    st2 = mkState (TriggerRun (attemptCtx r suite) (specOf suite files) (world st1)).2
                  (calls st1 ++ [CallTriggerRun (attemptCtx r suite) (specOf suite files)])
                  (reports st1).

(** The submission succeeded and the polling of the job returned
    [(run, perr)] in state [st3]. *)
Definition polled (fuel : nat) r suite st (runner run : Runner) (perr : option error)
    (st3 : State W) : Prop :=
  ∃ st2,
    submitted r suite st runner None st2 ∧
    PollRun fuel (attemptCtx r suite) (ID runner) (Status runner) st2
      = Some ((run, perr), st3).

(** [ctx.Err() != nil] for the context of the attempt. *)
Definition expired r suite st : Prop :=
  ctx_Err (attemptCtx r suite) (world st) ≠ None.

(** The environment ends the polling of a job: at some turn the context
    of the attempt is done, or the backend answers with an error or with
    a terminal status.  The deadline every attempt runs under is what
    makes this hold of a real run. *)
Inductive polls_end (c : Context) (id : string) : W → Prop :=
| polls_end_done w :
    (select_wake c w).1 = WakeDone → polls_end c id w
| polls_end_answer w :
    (select_wake c w).1 = WakeTick →
    (GetStatus c id (select_wake c w).2).1.2 ≠ None ∨
    imagerunner_Done (Status (GetStatus c id (select_wake c w).2).1.1) = true →
    polls_end c id w
| polls_end_later w :
    (select_wake c w).1 = WakeTick →
    polls_end c id (GetStatus c id (select_wake c w).2).2 →
    polls_end c id w.

(** How an attempt ends once its polling has returned [(run, perr)] in
    state [st3]: the second half of [runSuite]. *)
Definition afterPoll r suite (runner run : Runner) (perr : option error) (st3 : State W)
    : (Runner * option error) * State W :=
  let cerr := ctx_Err (attemptCtx r suite) (world st3) in
  if Is perr DeadlineExceeded && bool_decide (cerr ≠ None)
  then ((setStatus run StateCancelled, Some (SuiteTimeoutError (attemptTimeout suite))),
        stopped runner st3)
  else if Is perr Canceled && bool_decide (cerr ≠ None)
  then ((setStatus run StateCancelled, Some ErrSuiteCancelled), stopped runner st3)
  else match perr with
       | Some e => ((run, Some e), st3)
       | None =>
           if bool_decide (Status run ≠ StateSucceeded)
           then ((run, Some (failedError suite run)), st3)
           else ((run, None), st3)
       end.

(** The calls of one attempt: none, or one submission, the polls of its
    job, and at most one stop, on a fresh context. *)
Definition attempt_calls r suite (new : list Call) : Prop :=
  new = [] ∨
  ∃ (files : list FileData) (id : string) (n : nat) (tail : list Call),
    new = CallTriggerRun (attemptCtx r suite) (specOf suite files)
            :: replicate n (CallGetStatus (attemptCtx r suite) id) ++ tail ∧
    (tail = [] ∨ tail = [CallStopRun Background id]).

(** The state after a reading of the clock. *)
Definition afterNow st : State W :=
  mkState (time_Now (world st)).2 (calls st) (reports st).

Definition nowOf st : Instant := (time_Now (world st)).1.

(** The shared context is cancelled when the worker, holding the suite
    it has just received, looks at it. *)
Definition cancelled_at_dequeue r st : Prop :=
  ctx_Err (ctx r) (world (afterNow st)) ≠ None.

Definition merged r suite : Suite :=
  applyDefaults (Defaults (RunnerProject r)) suite.

(** The result sent for a suite that is skipped. *)
Definition skippedResult r suite st : execResult :=
  {| name := Name (merged r suite); runID := ""; status := StateCancelled;
     err := Some ErrSuiteCancelled;
     duration := sat64 (nowOf (afterNow (afterNow st)) - nowOf st);
     startTime := nowOf st; endTime := nowOf (afterNow st); attempts := 0 |}.

(** The result sent for a suite whose attempt returned [(run, e)] in
    state [st2]. *)
Definition attemptResult r suite st (run : Runner) (e : option error) (st2 : State W)
    : execResult :=
  {| name := Name (merged r suite); runID := ID run; status := Status run; err := e;
     duration := sat64 (nowOf (afterNow st2) - nowOf st);
     startTime := nowOf st; endTime := nowOf st2; attempts := 1 |}.

(** [f] matches at least one of the patterns. *)
Definition matches (patterns : list string) (f : string) : bool :=
  existsb (λ pattern, glob_Glob pattern f) patterns.

(** The download calls for a listing: one per listed name that matches,
    in the order of the listing. *)
Definition downloads r (runnerID dir : string) (files : list string) : list Call :=
  map (λ f, CallDownloadArtifact (ctx r) runnerID f dir)
      (List.filter (matches (Match (ProjectArtifacts (RunnerProject r)))) files).

Definition noError (res : execResult) : bool := bool_decide (err res = None).

(** Whether the aggregator collects the artifacts of [res], the verdict
    before [res] being [passed]. *)
Definition collects r (res : execResult) (passed : bool) : bool :=
  ShouldDownloadArtifact (runID res) (passed && noError res)
    (bool_decide (status res ≠ StateCancelled)) false
    (ProjectArtifacts (RunnerProject r)).

Definition adds r (res : execResult) : list ReporterCall :=
  map (λ rep, ReporterAdd rep (testResultOf res)) (Reporters r).

(** [res] is the result a worker sent for [suite]. *)
Definition result_of (fuel : nat) r suite (res : execResult) : Prop :=
  ∃ st st', runSuites_iter fuel r suite st = Some (res, st').

(** The results the workers hold and are about to send. *)
Definition held (ws : list worker) : list execResult :=
  match ws with
  | [Sending res] => [res]
  | _ => []
  end.

(** The invariant of a run with one worker: every suite is on its way
    to the worker or has been taken by it, every suite taken has its one
    result, received or on its way to the aggregator, and the verdict is
    the conjunction over the results received. *)
Record inv (fuel : nat) r (expected : Z) s : Prop := mkInv {
  inv_worker : ∃ w, workers (pool s) = [w];
  inv_suites :
    taken s ++ buf (suitesCh (pool s)) ++ pending s = Suites (RunnerProject r);
  inv_results :
    Forall2 (result_of fuel r) (taken s)
            (received s ++ buf (resultsCh (pool s)) ++ held (workers (pool s)));
  inv_i : col_i s = Z.of_nat (length (received s));
  inv_le : col_i s ≤ expected;
  inv_progress : col_inProgress s = expected - col_i s;
  inv_passed : col_passed s = forallb noError (received s);
  inv_returned : ∀ b, returned s = Some b → b = col_passed s ∧ col_i s = expected
}.

(** The state of a run in which both channels are empty and the worker
    of [RunProject] is at the head of its loop. *)
Definition idle (pend : list Suite) (i inProgress : Z) (passed : bool) st
    (tk : list Suite) (rc : list execResult) : @Sys W :=
  mkSys pend (mkPool (mkChan 1 []) (mkChan 1 []) [Receiving]) i inProgress passed None
        st tk rc.

(** The calls of one collection of the artifacts of job [runnerID] for
    the suite [suiteName], started in the world [w]: none when the
    directory cannot be created; otherwise the listing, then one
    download per listed name that matches, into that directory. *)
Definition artifact_calls r (runnerID suiteName : string) (w : W) : list Call :=
  let folder := GetSuiteArtifactFolder suiteName (ProjectArtifacts (RunnerProject r)) w in
  match folder.1.2 with
  | Some _ => []
  | None =>
      CallListArtifacts (ctx r) runnerID
        :: downloads r runnerID folder.1.1 (ListArtifacts (ctx r) runnerID folder.2).1.1
  end.

End Notions.

(** A schedule that serves the suites one at a time: the suite is sent,
    the worker takes it and runs it, sends its result, and the
    aggregator handles the result; at the end the aggregator returns. *)
Definition round : list goroutine := [GoSubmit; GoWorker 0; GoWorker 0; GoMain].

Fixpoint rounds (n : nat) : list goroutine :=
  match n with
  | O => [GoMain]
  | S n' => round ++ rounds n'
  end.

(** ** A scripted world

    A concrete world, for running the engine on examples: the backend
    answers from scripts, and the context of the running attempt reports
    the error the script has set. *)

Module Sim.

Record World := mkWorld {
  rootErr : option error;          (* what [r.ctx.Err()] reports *)
  attemptErr : option error;       (* what the attempt's [ctx.Err()] reports *)
  triggers : list (Runner * option error * option error);
  wakes : list (option error);
  statuses : list (Runner * option error);
  stopErr : option error;
  listing : list string * option error;
  downloadErr : option error;
  mkdirErr : option error;
  clock : Z
}.

(** [TriggerRun] takes the next scripted answer; its third component is
    the state of the attempt's context when the call returns. *)
Definition sim_TriggerRun (c : Context) (spec : RunnerSpec) (w : World)
    : (Runner * option error) * World :=
  match triggers w with
  | (run, e, cerr) :: rest =>
      ((run, e),
       mkWorld (rootErr w) cerr rest (wakes w) (statuses w) (stopErr w)
               (listing w) (downloadErr w) (mkdirErr w) (clock w))
  | [] => ((zeroRunner, Some (errorString "backend unavailable")), w)
  end.

Definition sim_GetStatus (c : Context) (id : string) (w : World)
    : (Runner * option error) * World :=
  match statuses w with
  | a :: rest =>
      (a, mkWorld (rootErr w) (attemptErr w) (triggers w) (wakes w) rest (stopErr w)
                  (listing w) (downloadErr w) (mkdirErr w) (clock w))
  | [] => ((zeroRunner, Some (errorString "backend unavailable")), w)
  end.

(** The [select]: [None] in the script is a tick, [Some e] is the
    context done with error [e]; when the script is over the deadline
    of the attempt fires. *)
Definition sim_select (c : Context) (w : World) : Wake * World :=
  match wakes w with
  | None :: rest =>
      (WakeTick, mkWorld (rootErr w) (attemptErr w) (triggers w) rest (statuses w)
                         (stopErr w) (listing w) (downloadErr w) (mkdirErr w) (clock w))
  | Some e :: rest =>
      (WakeDone, mkWorld (rootErr w) (Some e) (triggers w) rest (statuses w)
                         (stopErr w) (listing w) (downloadErr w) (mkdirErr w) (clock w))
  | [] =>
      (WakeDone, mkWorld (rootErr w) (Some DeadlineExceeded) (triggers w) [] (statuses w)
                         (stopErr w) (listing w) (downloadErr w) (mkdirErr w) (clock w))
  end.

Definition sim_ctx_Err (c : Context) (w : World) : option error :=
  match c with
  | Background => None
  | WithCancel _ => rootErr w
  | WithTimeout _ _ => attemptErr w
  end.

Definition sim_Now (w : World) : Instant * World :=
  (clock w, mkWorld (rootErr w) (attemptErr w) (triggers w) (wakes w) (statuses w)
                    (stopErr w) (listing w) (downloadErr w) (mkdirErr w) (clock w + 1)).

Definition sim_ReadFile (path : string) (w : World) : (string * option error) * World :=
  if bool_decide (path = "missing")
  then (("", Some (errorString "open missing: no such file or directory")), w)
  else (("data", None), w).

Definition sim_Folder (suiteName : string) (cfg : ArtifactDownload) (w : World)
    : (string * option error) * World :=
  match mkdirErr w with
  | Some e => (("", Some e), w)
  | None => ((Directory cfg +:+ "/" +:+ suiteName, None), w)
  end.

#[global] Instance sim_client : ImageRunner World := {
  TriggerRun := sim_TriggerRun;
  GetStatus := sim_GetStatus;
  StopRun := λ _ _ w, (stopErr w, w);
  ListArtifacts := λ _ _ w, (listing w, w);
  DownloadArtifact := λ _ _ _ _ w, (downloadErr w, w)
}.

#[global] Instance sim_runtime : Runtime World := {
  ctx_Err := sim_ctx_Err;
  select_wake := sim_select;
  time_Now := sim_Now;
  os_ReadFile := sim_ReadFile;
  GetSuiteArtifactFolder := sim_Folder
}.

(** Stand-ins for the library functions: a pattern matches when it is
    the star or the name itself; three statuses are terminal. *)
#[global] Instance sim_library : Library := {
  glob_Glob := λ pattern subj, bool_decide (pattern = "*") || bool_decide (pattern = subj);
  imagerunner_Done := λ s, bool_decide (s = "Succeeded") || bool_decide (s = "Failed")
                           || bool_decide (s = "Cancelled");
  base64_EncodeToString := λ s, s
}.

(** [r.cancel()] on the root context: its error is set, once. *)
Definition sim_cancel (c : Context) (w : World) : World :=
  match c with
  | WithCancel _ =>
      mkWorld (match rootErr w with Some e => Some e | None => Some Canceled end)
              (attemptErr w) (triggers w) (wakes w) (statuses w) (stopErr w)
              (listing w) (downloadErr w) (mkdirErr w) (clock w)
  | _ => w
  end.

#[global] Instance sim_signals : Signals World := {
  ctx_cancel := sim_cancel
}.

(** A quiet world: nothing cancelled, nothing scripted. *)
Definition quiet : World :=
  mkWorld None None [] [] [] None ([], None) None None 0.

Definition plainSuite (n : string) : Suite :=
  {| Name := n; Image := "img"; ImagePullAuth := {| User := ""; Token := "" |};
     EntryPoint := ""; Timeout := 0; Files := []; Artifacts := []; Env := None |}.

Definition noDefaults : Suite :=
  {| Name := ""; Image := ""; ImagePullAuth := {| User := ""; Token := "" |};
     EntryPoint := ""; Timeout := 0; Files := []; Artifacts := []; Env := None |}.

Definition projectOf (suites : list Suite) : Project :=
  {| Defaults := noDefaults; Suites := suites;
     ProjectArtifacts := {| DownloadWhen := WhenAlways; Match := ["*"];
                            Directory := "artifacts" |} |}.

Definition runnerOf (suites : list Suite) : ImgRunner :=
  {| RunnerProject := projectOf suites; Reporters := [0%nat];
     ctx := WithCancel Background |}.

Definition job (id st : string) : Runner :=
  {| ID := id; Status := st; TerminationReason := "" |}.

Definition start (w : World) : State World := mkState w [] [].

(** Suite D: the first job fails; a second submission would succeed. *)
Definition retryWorld : World :=
  mkWorld None None
    [(job "d1" "Pending", None, None); (job "d2" "Pending", None, None)]
    [None; None]
    [(job "d1" "Failed", None); (job "d2" "Succeeded", None)]
    None ([], None) None None 0.

(** Suite E: the deadline of the attempt fires while the job runs, and
    the stop request fails. *)
Definition expiryWorld : World :=
  mkWorld None None [(job "e1" "Running", None, None)] [Some DeadlineExceeded] []
    (Some (errorString "stop failed")) ([], None) None None 0.

(** The interrupt arrives while the job of suite F runs. *)
Definition interruptWorld : World :=
  mkWorld None None [(job "f1" "Running", None, None)] [Some Canceled] []
    None ([], None) None None 0.

(** The deadline fires during the submission itself. *)
Definition lateSubmitWorld : World :=
  mkWorld None None
    [(zeroRunner, Some (wrapError "Post /runs" DeadlineExceeded), Some DeadlineExceeded)]
    [] [] None ([], None) None None 0.

(** The shared context is already cancelled. *)
Definition cancelledWorld : World :=
  mkWorld (Some Canceled) None [(job "g1" "Pending", None, None)] [None]
    [(job "g1" "Succeeded", None)] None ([], None) None None 0.

(** Suites A, B and C all succeed at their first poll; the backend
    lists three artifacts. *)
Definition successWorld : World :=
  mkWorld None None
    [(job "a1" "Pending", None, None); (job "b1" "Pending", None, None);
     (job "c1" "Pending", None, None)]
    [None; None; None]
    [(job "a1" "Succeeded", None); (job "b1" "Succeeded", None);
     (job "c1" "Succeeded", None)]
    None (["junit.xml"; "video.mp4"; "log.txt"], None)
    (Some (errorString "download failed")) None 0.


(** A runner whose project downloads two named files. *)
Definition artifactRunner : ImgRunner :=
  {| RunnerProject :=
       {| Defaults := noDefaults; Suites := [plainSuite "A"];
          ProjectArtifacts := {| DownloadWhen := WhenAlways;
                                 Match := ["junit.xml"; "log.txt"];
                                 Directory := "artifacts" |} |};
     Reporters := [0%nat];
     ctx := WithCancel Background |}.

(** Defaults that set an image, files and a timeout. *)
Definition someDefaults : Suite :=
  {| Name := ""; Image := "default-img"; ImagePullAuth := {| User := ""; Token := "" |};
     EntryPoint := "run.sh"; Timeout := 5 * Hour;
     Files := [{| Src := "common.cfg"; Dst := "/cfg" |}]; Artifacts := ["*.log"];
     Env := Some {[ "CI" := "true" ]} |}.

Definition fileSuite : Suite :=
  {| Name := "S"; Image := "img"; ImagePullAuth := {| User := ""; Token := "" |};
     EntryPoint := ""; Timeout := 0;
     Files := [{| Src := "test.js"; Dst := "/test.js" |}]; Artifacts := [];
     Env := None |}.

(** A suite that sets an environment key the defaults set too. *)
Definition envSuite : Suite :=
  {| Name := "S"; Image := "img"; ImagePullAuth := {| User := ""; Token := "" |};
     EntryPoint := ""; Timeout := 0; Files := []; Artifacts := [];
     Env := Some {[ "CI" := "false" ]} |}.

Definition defaultsRunner : ImgRunner :=
  {| RunnerProject :=
       {| Defaults := someDefaults; Suites := [fileSuite];
          ProjectArtifacts := {| DownloadWhen := WhenNever; Match := [];
                                 Directory := "" |} |};
     Reporters := [];
     ctx := WithCancel Background |}.

(** A suite with a file that cannot be read. *)
Definition brokenSuite : Suite :=
  {| Name := "B"; Image := "img"; ImagePullAuth := {| User := ""; Token := "" |};
     EntryPoint := ""; Timeout := 0;
     Files := [{| Src := "missing"; Dst := "/m" |}]; Artifacts := []; Env := None |}.

(** The backend rejects the submission, and sends a job along with the
    error. *)
Definition rejectWorld : World :=
  mkWorld None None [(job "x1" "Pending", Some (errorString "401 Unauthorized"), None)]
    [] [] None ([], None) None None 0.

(** The interrupt arrives during the submission. *)
Definition cancelSubmitWorld : World :=
  mkWorld None None [(zeroRunner, Some (wrapError "Post /runs" Canceled), Some Canceled)]
    [] [] None ([], None) None None 0.

(** A result without an error, for a job ["a1"]. *)
Definition okResult : execResult :=
  {| name := "A"; runID := "a1"; status := "Succeeded"; err := None; duration := 2;
     startTime := 0; endTime := 1; attempts := 1 |}.

End Sim.

(** * Properties *)

Ltac munfold :=
  repeat progress
    (unfold mbind, M_bind, mret, M_ret, client, logCall, logReport, liftW, readW,
       waiting in *).

Section EngineFacts.

Context {W : Type} `{!ImageRunner W} `{!Runtime W} `{!Library}.

Implicit Types (st : State W) (r : ImgRunner) (suite : Suite).

Lemma chain_Is_refl (e : error) : chain_Is e e = true.
Proof.
  assert (Hd : bool_decide (e = e) = true) by (by apply bool_decide_eq_true_2).
  destruct e; cbn [chain_Is]; rewrite Hd; reflexivity.
Qed.

Lemma readFile_spec (path : string) st :
  ∃ x, readFile path st = Some (x, mkState (os_ReadFile path (world st)).2 (calls st) (reports st)).
Proof.
  unfold readFile. munfold.
  destruct (os_ReadFile path (world st)) as [[bytes [e|]] w']; simpl; eauto.
Qed.

Lemma mapFiles_loop_total (files : list File) : ∀ (items : list FileData) st,
  ∃ x st', mapFiles_loop files items st = Some (x, st') ∧
           calls st' = calls st ∧ reports st' = reports st.
Proof.
  induction files as [|f rest IH]; intros items st; simpl.
  - eexists _, _. split; [reflexivity|done].
  - destruct (readFile_spec (Src f) st) as [[data e] Hrd].
    unfold mbind, M_bind at 1. rewrite Hrd.
    destruct e as [e|].
    + eexists _, _. split; [reflexivity|done].
    + destruct (IH (items ++ [{| Path := Dst f; Data := data |}])
                   (mkState (os_ReadFile (Src f) (world st)).2 (calls st) (reports st)))
        as (x & st' & Hx & Hc & Hr).
      eexists _, _. split; [exact Hx|done].
Qed.

Lemma mapFiles_total (files : list File) st :
  ∃ x st', mapFiles files st = Some (x, st') ∧
           calls st' = calls st ∧ reports st' = reports st.
Proof. apply mapFiles_loop_total. Qed.

(** *** The polling loop *)

(** The loop calls nothing but [GetStatus], on the context and the job
    it was given. *)
Lemma PollRun_log (fuel : nat) (c : Context) (id : string) :
  ∀ (ls : string) st x st',
    PollRun fuel c id ls st = Some (x, st') →
    ∃ n : nat, calls st' = calls st ++ replicate n (CallGetStatus c id) ∧
               reports st' = reports st.
Proof.
  induction fuel as [|fuel IH]; intros ls st x st' Hp; [discriminate|].
  cbn [PollRun] in Hp. munfold. simpl in Hp.
  destruct (select_wake c (world st)) as [[|] w1]; simpl in Hp.
  - inversion Hp; subst; simpl. exists 0%nat. simpl. by rewrite app_nil_r.
  - destruct (GetStatus c id w1) as [[run [e|]] w2]; simpl in Hp.
    + inversion Hp; subst; simpl. by exists 1%nat.
    + destruct (imagerunner_Done (Status run)).
      * inversion Hp; subst; simpl. by exists 1%nat.
      * apply IH in Hp as (n & Hc & Hr). simpl in Hc, Hr.
        exists (S n). split; [|done]. rewrite Hc, <- app_assoc. done.
Qed.

(** More turns do not change a poll that has returned. *)
Lemma PollRun_mono (fuel : nat) (c : Context) (id : string) :
  ∀ (fuel' : nat) (ls : string) st x,
    (fuel ≤ fuel')%nat →
    PollRun fuel c id ls st = Some x → PollRun fuel' c id ls st = Some x.
Proof.
  induction fuel as [|fuel IH]; intros fuel' ls st x Hle Hp; [discriminate|].
  destruct fuel' as [|fuel']; [lia|].
  cbn [PollRun] in *. munfold. simpl in *.
  destruct (select_wake c (world st)) as [[|] w1]; simpl in *; [done|].
  destruct (GetStatus c id w1) as [[run [e|]] w2]; simpl in *; [done|].
  destruct (imagerunner_Done (Status run)); [done|].
  apply IH; [lia|done].
Qed.

(** A poll that returns without an error returns either a job in a
    terminal status, as the backend reported it, or, when the context
    was done and yet reported no error, the zero value. *)
Lemma PollRun_no_error (fuel : nat) (c : Context) (id : string) :
  ∀ (ls : string) st run st',
    PollRun fuel c id ls st = Some ((run, None), st') →
    imagerunner_Done (Status run) = true ∨
    (run = zeroRunner ∧ ctx_Err c (world st') = None).
Proof.
  induction fuel as [|fuel IH]; intros ls st run st' Hp; [discriminate|].
  cbn [PollRun] in Hp. munfold. simpl in Hp.
  destruct (select_wake c (world st)) as [[|] w1]; simpl in Hp.
  - inversion Hp; subst; simpl. right. done.
  - destruct (GetStatus c id w1) as [[run' [e|]] w2]; simpl in Hp; [discriminate|].
    destruct (imagerunner_Done (Status run')) eqn:Hd.
    + inversion Hp; subst. by left.
    + by apply IH in Hp.
Qed.

Lemma PollRun_ends (c : Context) (id : string) (w : W) :
  polls_end c id w →
  ∃ fuel : nat, ∀ (ls : string) (cs : list Call) (rs : list ReporterCall),
    ∃ x, PollRun fuel c id ls (mkState w cs rs) = Some x.
Proof.
  induction 1 as [w Hd | w Ht Hor | w Ht Hl [fuel IH]].
  - exists 1%nat. intros ls cs rs. cbn [PollRun]. munfold. simpl.
    destruct (select_wake c w) as [wk w1]; simpl in *; subst. simpl. eauto.
  - exists 1%nat. intros ls cs rs. cbn [PollRun]. munfold. simpl.
    destruct (select_wake c w) as [wk w1]; simpl in *; subst. simpl.
    destruct (GetStatus c id w1) as [[run [e|]] w2]; simpl in *; [eauto|].
    destruct Hor as [Hor|Hor]; [done|]. rewrite Hor. eauto.
  - exists (S fuel). intros ls cs rs. cbn [PollRun]. munfold. simpl.
    destruct (select_wake c w) as [wk w1]; simpl in *; subst. simpl.
    destruct (GetStatus c id w1) as [[run [e|]] w2]; simpl in *; [eauto|].
    destruct (imagerunner_Done (Status run)); [eauto|]. apply IH.
Qed.

(** *** One attempt *)

Lemma runSuite_files_error (fuel : nat) r suite st items e st1 :
  mapFiles (Files suite) st = Some ((items, Some e), st1) →
  runSuite fuel r suite st = Some ((zeroRunner, Some e), st1).
Proof. intros Hmf. unfold runSuite. munfold. rewrite Hmf. reflexivity. Qed.

(** [runSuite] from the answer of the submission on. *)
Lemma runSuite_submitted (fuel : nat) r suite st runner serr st2 :
  submitted r suite st runner serr st2 →
  runSuite fuel r suite st =
    let cerr := ctx_Err (attemptCtx r suite) (world st2) in
    if Is serr DeadlineExceeded && bool_decide (cerr ≠ None)
    then Some ((setStatus zeroRunner StateCancelled,
                Some (SuiteTimeoutError (attemptTimeout suite))), st2)
    else if Is serr Canceled && bool_decide (cerr ≠ None)
    then Some ((setStatus zeroRunner StateCancelled, Some ErrSuiteCancelled), st2)
    else match serr with
         | Some e => Some ((zeroRunner, Some e), st2)
         | None =>
             match PollRun fuel (attemptCtx r suite) (ID runner) (Status runner) st2 with
             | Some ((run, perr), st3) => Some (afterPoll r suite runner run perr st3)
             | None => None
             end
         end.
Proof.
  intros (files & st1 & Hmf & Htr & ->).
  unfold runSuite. munfold. rewrite Hmf. simpl.
  fold (attemptCtx r suite).
  destruct (TriggerRun (attemptCtx r suite) (specOf suite files) (world st1))
    as [[runner' serr'] w2]. simpl in Htr. inversion Htr; subst runner' serr'. simpl.
  destruct (Is serr DeadlineExceeded && _); [done|].
  destruct (Is serr Canceled && _); [done|].
  destruct serr as [e|]; [done|].
  destruct (PollRun fuel _ _ _ _) as [[[run perr] st3]|]; [|done].
  unfold afterPoll, stopped. simpl.
  destruct (Is perr DeadlineExceeded && _).
  { destruct (StopRun _ _ _); done. }
  destruct (Is perr Canceled && _).
  { destruct (StopRun _ _ _); done. }
  destruct perr; [done|]. by destruct (bool_decide _).
Qed.

Lemma runSuite_polled (fuel : nat) r suite st runner run perr st3 :
  polled fuel r suite st runner run perr st3 →
  runSuite fuel r suite st = Some (afterPoll r suite runner run perr st3).
Proof.
  intros (st2 & Hsub & Hp). rewrite (runSuite_submitted _ _ _ _ _ _ _ Hsub).
  simpl. rewrite Hp. done.
Qed.

(** Every attempt that gets past its files is a submission. *)
Lemma submitted_exists r suite st files st1 :
  mapFiles (Files suite) st = Some ((files, None), st1) →
  ∃ runner serr st2, submitted r suite st runner serr st2.
Proof.
  intros Hmf.
  destruct (TriggerRun (attemptCtx r suite) (specOf suite files) (world st1))
    as [[runner serr] w2] eqn:Htr.
  exists runner, serr, (mkState w2 (calls st1 ++ [CallTriggerRun (attemptCtx r suite)
                                                       (specOf suite files)]) (reports st1)).
  exists files, st1. rewrite Htr. done.
Qed.

Lemma runSuite_log (fuel : nat) r suite st x st' :
  runSuite fuel r suite st = Some (x, st') →
  reports st' = reports st ∧
  ∃ new, calls st' = calls st ++ new ∧ attempt_calls r suite new.
Proof.
  intros Hrun.
  destruct (mapFiles_total (Files suite) st) as ([files [e|]] & st1 & Hmf & Hc1 & Hr1).
  { rewrite (runSuite_files_error _ _ _ _ _ _ _ Hmf) in Hrun.
    inversion Hrun; subst. split; [done|]. exists []. rewrite app_nil_r. split; [done|by left]. }
  destruct (submitted_exists r suite st files st1 Hmf) as (runner & serr & st2 & Hsub).
  rewrite (runSuite_submitted _ _ _ _ _ _ _ Hsub) in Hrun.
  destruct Hsub as (files' & st1' & Hmf' & Htr & ->).
  rewrite Hmf in Hmf'. inversion Hmf'; subst files' st1'. clear Hmf'.
  set (c := attemptCtx r suite) in *. set (spec := specOf suite files) in *.
  assert (Hshape : ∀ n tail, (tail = [] ∨ tail = [CallStopRun Background (ID runner)]) →
            attempt_calls r suite (CallTriggerRun c spec
               :: replicate n (CallGetStatus c (ID runner)) ++ tail)).
  { intros n tail Ht. right. exists files, (ID runner), n, tail. done. }
  simpl in Hrun.
  destruct (Is serr DeadlineExceeded && _).
  { inversion Hrun; subst; simpl. split; [done|]. eexists. rewrite Hc1. split; [done|].
    apply (Hshape 0%nat []). by left. }
  destruct (Is serr Canceled && _).
  { inversion Hrun; subst; simpl. split; [done|]. eexists. rewrite Hc1. split; [done|].
    apply (Hshape 0%nat []). by left. }
  destruct serr as [e|].
  { inversion Hrun; subst; simpl. split; [done|]. eexists. rewrite Hc1. split; [done|].
    apply (Hshape 0%nat []). by left. }
  destruct (PollRun fuel _ _ _ _) as [[[run perr] st3]|] eqn:Hp; [|done].
  apply PollRun_log in Hp as (n & Hc3 & Hr3). simpl in Hc3, Hr3.
  unfold afterPoll, stopped in Hrun.
  destruct (Is perr DeadlineExceeded && _).
  { inversion Hrun; subst; simpl. split; [congruence|].
    exists (CallTriggerRun c spec :: replicate n (CallGetStatus c (ID runner))
              ++ [CallStopRun Background (ID runner)]).
    split; [|apply Hshape; by right].
    rewrite Hc3, Hc1. by rewrite <- !app_assoc. }
  destruct (Is perr Canceled && _).
  { inversion Hrun; subst; simpl. split; [congruence|].
    exists (CallTriggerRun c spec :: replicate n (CallGetStatus c (ID runner))
              ++ [CallStopRun Background (ID runner)]).
    split; [|apply Hshape; by right].
    rewrite Hc3, Hc1. by rewrite <- !app_assoc. }
  assert (Hend : calls st3 = calls st ++ CallTriggerRun c spec
                   :: replicate n (CallGetStatus c (ID runner)) ++ []).
  { rewrite Hc3, Hc1, app_nil_r. by rewrite <- !app_assoc. }
  destruct perr as [e|]; [|destruct (bool_decide _)];
    inversion Hrun; subst; (split; [congruence|]);
    eexists; (split; [exact Hend|apply Hshape; by left]).
Qed.

Lemma runSuite_mono (fuel fuel' : nat) r suite st x :
  (fuel ≤ fuel')%nat →
  runSuite fuel r suite st = Some x → runSuite fuel' r suite st = Some x.
Proof.
  intros Hle Hrun.
  destruct (mapFiles_total (Files suite) st) as ([files [e|]] & st1 & Hmf & _).
  { rewrite (runSuite_files_error fuel _ _ _ _ _ _ Hmf) in Hrun.
    by rewrite (runSuite_files_error fuel' _ _ _ _ _ _ Hmf). }
  destruct (submitted_exists r suite st files st1 Hmf) as (runner & serr & st2 & Hsub).
  rewrite (runSuite_submitted fuel _ _ _ _ _ _ Hsub) in Hrun.
  rewrite (runSuite_submitted fuel' _ _ _ _ _ _ Hsub). simpl in *.
  destruct (Is serr DeadlineExceeded && _); [done|].
  destruct (Is serr Canceled && _); [done|].
  destruct serr as [e|]; [done|].
  destruct (PollRun fuel _ _ _ _) as [y|] eqn:Hp; [|done].
  by rewrite (PollRun_mono _ _ _ _ _ _ _ Hle Hp).
Qed.

(** An attempt returns, if the environment ends every polling. *)
Lemma runSuite_total r suite st :
  (∀ c id w, polls_end c id w) →
  ∃ fuel x, runSuite fuel r suite st = Some x.
Proof.
  intros Hends.
  destruct (mapFiles_total (Files suite) st) as ([files [e|]] & st1 & Hmf & _).
  { exists 0%nat. rewrite (runSuite_files_error _ _ _ _ _ _ _ Hmf). eauto. }
  destruct (submitted_exists r suite st files st1 Hmf) as (runner & serr & st2 & Hsub).
  destruct (PollRun_ends _ (ID runner) (world st2) (Hends (attemptCtx r suite) _ _))
    as [fuel Hp].
  exists fuel. rewrite (runSuite_submitted _ _ _ _ _ _ _ Hsub). simpl.
  destruct (Is serr DeadlineExceeded && _); [eauto|].
  destruct (Is serr Canceled && _); [eauto|].
  destruct serr as [e|]; [eauto|].
  destruct (Hp (Status runner) (calls st2) (reports st2)) as [[[run perr] st3] Hx].
  destruct st2 as [w2 cs2 rs2]. simpl in Hx. rewrite Hx. eauto.
Qed.

(** *** One turn of the worker *)

Lemma runSuites_iter_skip (fuel : nat) r suite st :
  cancelled_at_dequeue r st →
  runSuites_iter fuel r suite st
    = Some (skippedResult r suite st, afterNow (afterNow (afterNow st))).
Proof.
  unfold cancelled_at_dequeue, runSuites_iter, skippedResult, afterNow, nowOf. intros Hc.
  munfold. simpl in *.
  destruct (time_Now (world st)) as [t0 w0]. simpl in *.
  rewrite bool_decide_eq_true_2 by done. simpl.
  destruct (time_Now w0) as [t1 w1]. simpl.
  destruct (time_Now w1) as [t2 w2]. simpl. done.
Qed.

Lemma runSuites_iter_run (fuel : nat) r suite st :
  ¬ cancelled_at_dequeue r st →
  runSuites_iter fuel r suite st =
    match runSuite fuel r (merged r suite) (afterNow st) with
    | Some ((run, e), st2) =>
        Some (attemptResult r suite st run e st2, afterNow (afterNow st2))
    | None => None
    end.
Proof.
  unfold cancelled_at_dequeue, runSuites_iter, attemptResult, afterNow, nowOf, merged.
  intros Hc. unfold mbind at 1, M_bind at 1, liftW at 1. simpl in *.
  destruct (time_Now (world st)) as [t0 w0]. simpl in *.
  unfold mbind at 1, M_bind at 1, readW at 1. simpl.
  rewrite bool_decide_eq_false_2 by done.
  unfold mbind at 1, M_bind at 1.
  destruct (runSuite fuel r _ _) as [[[run e] st2]|]; [|done].
  munfold. simpl.
  destruct (time_Now (world st2)) as [t1 w1]. simpl.
  destruct (time_Now w1) as [t2 w2]. simpl. done.
Qed.

Lemma cancelled_at_dequeue_dec r st :
  cancelled_at_dequeue r st ∨ ¬ cancelled_at_dequeue r st.
Proof.
  unfold cancelled_at_dequeue.
  destruct (ctx_Err (ctx r) (world (afterNow st))); [left|right]; naive_solver.
Qed.

Lemma runSuites_iter_mono (fuel fuel' : nat) r suite st x :
  (fuel ≤ fuel')%nat →
  runSuites_iter fuel r suite st = Some x → runSuites_iter fuel' r suite st = Some x.
Proof.
  intros Hle. destruct (cancelled_at_dequeue_dec r st) as [Hc|Hc].
  - by rewrite !(runSuites_iter_skip _ _ _ _ Hc).
  - rewrite !(runSuites_iter_run _ _ _ _ Hc).
    destruct (runSuite fuel _ _ _) as [y|] eqn:Hrun; [|done].
    by rewrite (runSuite_mono _ _ _ _ _ _ Hle Hrun).
Qed.

Lemma runSuites_iter_total r suite st :
  (∀ c id w, polls_end c id w) →
  ∃ fuel x, runSuites_iter fuel r suite st = Some x.
Proof.
  intros Hends. destruct (cancelled_at_dequeue_dec r st) as [Hc|Hc].
  - exists 0%nat. rewrite (runSuites_iter_skip _ _ _ _ Hc). eauto.
  - destruct (runSuite_total r (merged r suite) (afterNow st) Hends)
      as (fuel & [[run e] st2] & Hrun).
    exists fuel. rewrite (runSuites_iter_run _ _ _ _ Hc), Hrun. eauto.
Qed.

(** What a turn of the worker leaves in the logs. *)
Lemma runSuites_iter_log (fuel : nat) r suite st res st' :
  runSuites_iter fuel r suite st = Some (res, st') →
  reports st' = reports st ∧
  name res = Name (merged r suite) ∧
  ∃ new, calls st' = calls st ++ new ∧ attempt_calls r (merged r suite) new ∧
         (cancelled_at_dequeue r st → new = [] ∧ attempts res = 0 ∧ runID res = "") ∧
         (¬ cancelled_at_dequeue r st → attempts res = 1).
Proof.
  intros Hit. destruct (cancelled_at_dequeue_dec r st) as [Hc|Hc].
  - rewrite (runSuites_iter_skip _ _ _ _ Hc) in Hit. inversion Hit; subst; simpl.
    split; [done|]. split; [done|]. exists []. rewrite app_nil_r.
    split; [done|]. split; [by left|]. split; [done|]. intros ?; done.
  - rewrite (runSuites_iter_run _ _ _ _ Hc) in Hit.
    destruct (runSuite fuel _ _ _) as [[[run e] st2]|] eqn:Hrun; [|done].
    apply runSuite_log in Hrun as (Hr & new & Hcalls & Hshape).
    inversion Hit; subst; simpl in *.
    split; [done|]. split; [done|]. exists new.
    split; [done|]. split; [done|]. split; [intros ?; done|done].
Qed.

(** *** Counting calls *)

Lemma count_calls_app (p : Call → bool) (l1 l2 : list Call) :
  count_calls p (l1 ++ l2) = (count_calls p l1 + count_calls p l2)%nat.
Proof. unfold count_calls. by rewrite filter_app, length_app. Qed.

Lemma count_calls_cons (p : Call → bool) (c : Call) (l : list Call) :
  count_calls p (c :: l) = ((if p c then 1 else 0) + count_calls p l)%nat.
Proof.
  unfold count_calls. rewrite filter_cons.
  destruct (p c) eqn:E; case_decide; simplify_eq; done.
Qed.

Lemma count_calls_polls (p : Call → bool) (c : Context) (id : string) (n : nat) :
  p (CallGetStatus c id) = false →
  count_calls p (replicate n (CallGetStatus c id)) = 0%nat.
Proof.
  intros Hp. induction n as [|n IH]; [done|].
  simpl. rewrite count_calls_cons, Hp. done.
Qed.

(** An attempt submits at most once and stops at most once. *)
Lemma attempt_calls_count r suite (new : list Call) :
  attempt_calls r suite new →
  (count_calls is_TriggerRun new ≤ 1)%nat ∧ (count_calls is_StopRun new ≤ 1)%nat.
Proof.
  intros [->|(files & id & n & tail & -> & Htail)]; [by compute; lia|].
  rewrite !count_calls_cons, !count_calls_app, !count_calls_polls by done.
  destruct Htail as [->| ->]; compute; lia.
Qed.

(** *** The worker over the suites it receives *)

Lemma runSuites_cons (fuel : nat) r suite (rest : list Suite) st :
  runSuites fuel r (suite :: rest) st =
    match runSuites_iter fuel r suite st with
    | Some (res, st1) =>
        match runSuites fuel r rest st1 with
        | Some (results, st2) => Some (res :: results, st2)
        | None => None
        end
    | None => None
    end.
Proof.
  cbn [runSuites]. unfold mbind at 1, M_bind at 1.
  destruct (runSuites_iter fuel r suite st) as [[res st1]|]; [|done].
  unfold mbind, M_bind.
  destruct (runSuites fuel r rest st1) as [[results st2]|]; done.
Qed.

(** The worker sends one result per suite it received, in order, and
    its calls are those of one attempt after the other: the calls for a
    suite are over before the next suite is taken. *)
Lemma runSuites_log (fuel : nat) r (suites : list Suite) :
  ∀ st results st',
    runSuites fuel r suites st = Some (results, st') →
    reports st' = reports st ∧
    Forall2 (λ suite res, name res = Name (merged r suite) ∧
                          (attempts res = 0 ∨ attempts res = 1)) suites results ∧
    ∃ segments : list (list Call),
      calls st' = calls st ++ concat segments ∧
      Forall2 (λ suite seg, attempt_calls r (merged r suite) seg) suites segments.
Proof.
  induction suites as [|suite rest IH]; intros st results st' Hrun.
  - inversion Hrun; subst. split; [done|]. split; [constructor|].
    exists []. simpl. rewrite app_nil_r. split; [done|constructor].
  - rewrite runSuites_cons in Hrun.
    destruct (runSuites_iter fuel r suite st) as [[res st1]|] eqn:Hit; [|done].
    destruct (runSuites fuel r rest st1) as [[results' st2]|] eqn:Hrest; [|done].
    inversion Hrun; subst results st'. clear Hrun.
    apply runSuites_iter_log in Hit as (Hr1 & Hname & new & Hc1 & Hshape & Hskip & Hran).
    apply IH in Hrest as (Hr2 & Hres & segs & Hc2 & Hsegs).
    split; [congruence|]. split.
    + constructor; [|done]. split; [done|].
      destruct (cancelled_at_dequeue_dec r st) as [Hc|Hc];
        [left; by apply Hskip|right; by apply Hran].
    + exists (new :: segs). split; [|by constructor].
      rewrite Hc2, Hc1. simpl. by rewrite <- app_assoc.
Qed.



(** *** Artifacts *)

Lemma download_first_match_spec r (runnerID f dir : string) (patterns : list string) :
  ∀ st, ∃ st',
    download_first_match r runnerID f dir patterns st = Some (tt, st') ∧
    reports st' = reports st ∧
    calls st' = calls st ++
      (if matches patterns f then [CallDownloadArtifact (ctx r) runnerID f dir] else []).
Proof.
  induction patterns as [|pattern rest IH]; intros st; simpl.
  - eexists. split; [reflexivity|]. by rewrite app_nil_r.
  - destruct (glob_Glob pattern f); simpl; [|apply IH].
    munfold. simpl. destruct (DownloadArtifact _ _ _ _ _) as [e w']. simpl.
    eexists. split; [reflexivity|]. done.
Qed.

Lemma download_files_spec r (runnerID dir : string) (files : list string) :
  ∀ st, ∃ st',
    download_files r runnerID dir files st = Some (tt, st') ∧
    reports st' = reports st ∧
    calls st' = calls st ++ downloads r runnerID dir files.
Proof.
  unfold downloads. induction files as [|f rest IH]; intros st; simpl.
  - eexists. split; [reflexivity|]. by rewrite app_nil_r.
  - destruct (download_first_match_spec r runnerID f dir
                (Match (ProjectArtifacts (RunnerProject r))) st) as (st1 & H1 & Hr1 & Hc1).
    unfold mbind, M_bind. rewrite H1.
    destruct (IH st1) as (st2 & H2 & Hr2 & Hc2).
    exists st2. split; [done|]. split; [congruence|].
    rewrite Hc2, Hc1, <- app_assoc.
    by destruct (matches _ f).
Qed.

(** [DownloadArtifacts] always returns.  When the directory cannot be
    created it calls nothing; otherwise it lists once and downloads the
    matching names, whatever the listing and the downloads answer. *)
Lemma DownloadArtifacts_spec r (runnerID suiteName : string) st :
  let cfg := ProjectArtifacts (RunnerProject r) in
  let folder := (GetSuiteArtifactFolder suiteName cfg (world st)).1 in
  let w1 := (GetSuiteArtifactFolder suiteName cfg (world st)).2 in
  ∃ st',
    DownloadArtifacts r runnerID suiteName st = Some (tt, st') ∧
    reports st' = reports st ∧
    calls st' = calls st ++
      match folder.2 with
      | Some _ => []
      | None => CallListArtifacts (ctx r) runnerID
                  :: downloads r runnerID folder.1
                       (ListArtifacts (ctx r) runnerID w1).1.1
      end.
Proof.
  simpl. unfold DownloadArtifacts. munfold. simpl.
  destruct (GetSuiteArtifactFolder _ _ _) as [[dir [e|]] w1]; simpl.
  - eexists. split; [reflexivity|]. by rewrite app_nil_r.
  - destruct (ListArtifacts (ctx r) runnerID w1) as [[files lerr] w2]; simpl.
    destruct (download_files_spec r runnerID dir files
                (mkState w2 (calls st ++ [CallListArtifacts (ctx r) runnerID]) (reports st)))
      as (st' & Hd & Hr & Hc).
    exists st'. split; [done|]. split; [done|].
    rewrite Hc. simpl. by rewrite <- app_assoc.
Qed.

(** *** The aggregator *)

Lemma addAll_spec (reps : list Reporter) (t : TestResult) :
  ∀ st, addAll reps t st
        = Some (tt, mkState (world st) (calls st)
                      (reports st ++ map (λ rep, ReporterAdd rep t) reps)).
Proof.
  induction reps as [|rep rest IH]; intros st; simpl.
  - rewrite app_nil_r. by destruct st.
  - munfold. rewrite IH. simpl. by rewrite <- app_assoc.
Qed.

Lemma renderAll_spec (reps : list Reporter) :
  ∀ st, renderAll reps st
        = Some (tt, mkState (world st) (calls st) (reports st ++ map ReporterRender reps)).
Proof.
  induction reps as [|rep rest IH]; intros st; simpl.
  - rewrite app_nil_r. by destruct st.
  - munfold. rewrite IH. simpl. by rewrite <- app_assoc.
Qed.

(** The handling of one result always returns; the verdict it returns
    depends on the verdict so far and on the error of the result, and on
    nothing else. *)
Lemma collect_one_spec r (res : execResult) (passed : bool) st :
  ∃ st',
    collect_one r res passed st = Some (passed && noError res, st') ∧
    reports st' = reports st ++ adds r res ∧
    ∃ new, calls st' = calls st ++ new ∧
           (collects r res passed = false → new = []) ∧
           (collects r res passed = true →
              ∃ st1, DownloadArtifacts r (runID res) (name res) st = Some (tt, st1) ∧
                     calls st1 = calls st ++ new).
Proof.
  unfold collect_one, collects, noError.
  assert (Hp : (if bool_decide (err res ≠ None) then false else passed)
               = passed && bool_decide (err res = None)).
  { destruct (err res); destruct passed; done. }
  rewrite Hp. unfold mbind at 1, M_bind at 1.
  destruct (ShouldDownloadArtifact _ _ _ _ _).
  - destruct (DownloadArtifacts_spec r (runID res) (name res) st) as (st1 & Hd & Hr & Hc).
    rewrite Hd. unfold mbind, M_bind. rewrite addAll_spec. simpl.
    eexists. split; [reflexivity|]. simpl. split; [by rewrite Hr|].
    eexists. split; [exact Hc|]. split; [done|]. intros _. eauto.
  - unfold mret at 1, M_ret at 1. unfold mbind, M_bind. rewrite addAll_spec. simpl.
    eexists. split; [reflexivity|]. simpl. split; [done|].
    exists []. rewrite app_nil_r. split; [done|]. split; [done|]. intros ?; done.
Qed.

Lemma collect_loop_unfold r (results : list execResult) (i expected inProgress : Z)
    (passed : bool) :
  collect_loop r results i expected inProgress passed =
    if i <? expected then
      match results with
      | [] => waiting
      | res :: rest =>
          passed' ← collect_one r res passed;
          collect_loop r rest (i + 1) expected (inProgress - 1) passed'
      end
    else mret (passed, inProgress, results).
Proof. by destruct results. Qed.

(** With enough results on the channel the loop takes the first
    [expected - i] of them and leaves the others. *)
Lemma collect_loop_spec r (results : list execResult) :
  ∀ (i expected inProgress : Z) (passed : bool) st,
    (Z.to_nat (expected - i) ≤ length results)%nat →
    ∃ st',
      collect_loop r results i expected inProgress passed st
        = Some ((passed && forallb noError (take (Z.to_nat (expected - i)) results),
                 inProgress - Z.of_nat (Z.to_nat (expected - i)),
                 drop (Z.to_nat (expected - i)) results), st') ∧
      reports st' = reports st
                    ++ concat (map (adds r) (take (Z.to_nat (expected - i)) results)).
Proof.
  induction results as [|res rest IH]; intros i expected inProgress passed st Hn;
    rewrite collect_loop_unfold.
  - simpl in Hn. assert (Hi : (i <? expected) = false) by (apply Z.ltb_ge; lia).
    rewrite Hi.
    replace (Z.to_nat (expected - i)) with 0%nat by lia. simpl.
    eexists. split; [|by rewrite app_nil_r].
    unfold mret, M_ret. rewrite andb_true_r, Z.sub_0_r. done.
  - destruct (i <? expected) eqn:Hi.
    + apply Z.ltb_lt in Hi.
      assert (Hs : Z.to_nat (expected - i) = S (Z.to_nat (expected - (i + 1)))) by lia.
      rewrite Hs. simpl in Hn.
      assert (Hn' : (Z.to_nat (expected - (i + 1)) ≤ length rest)%nat) by lia.
      destruct (collect_one_spec r res passed st) as (st1 & H1 & Hr1 & _).
      unfold mbind, M_bind. rewrite H1.
      destruct (IH (i + 1) expected (inProgress - 1) (passed && noError res) st1 Hn')
        as (st2 & H2 & Hr2).
      exists st2. rewrite H2. split.
      * cbn [firstn skipn forallb]. rewrite andb_assoc, Nat2Z.inj_succ.
        assert (HZ : ∀ x, inProgress - 1 - x = inProgress - Z.succ x) by (intros; lia).
        by rewrite HZ.
      * rewrite Hr2, Hr1. cbn [firstn map concat]. by rewrite <- app_assoc.
    + apply Z.ltb_ge in Hi.
      replace (Z.to_nat (expected - i)) with 0%nat by lia. simpl.
      eexists. split; [|by rewrite app_nil_r].
      unfold mret, M_ret. rewrite andb_true_r, Z.sub_0_r. done.
Qed.

(** With fewer results than it expects the loop does not return. *)
Lemma collect_loop_waits r (results : list execResult) :
  ∀ (i expected inProgress : Z) (passed : bool) st,
    (length results < Z.to_nat (expected - i))%nat →
    collect_loop r results i expected inProgress passed st = None.
Proof.
  induction results as [|res rest IH]; intros i expected inProgress passed st Hn;
    rewrite collect_loop_unfold; simpl in Hn.
  - assert (Hi : (i <? expected) = true) by (apply Z.ltb_lt; lia). by rewrite Hi.
  - assert (Hi : (i <? expected) = true) by (apply Z.ltb_lt; lia). rewrite Hi.
    destruct (collect_one_spec r res passed st) as (st1 & H1 & _).
    unfold mbind, M_bind. rewrite H1. apply IH. lia.
Qed.

Lemma collectResults_spec r (results : list execResult) (expected : Z) st :
  (Z.to_nat expected ≤ length results)%nat →
  ∃ st',
    collectResults r results expected st
      = Some ((forallb noError (take (Z.to_nat expected) results),
               drop (Z.to_nat expected) results), st') ∧
    reports st' = reports st
                  ++ concat (map (adds r) (take (Z.to_nat expected) results))
                  ++ map ReporterRender (Reporters r).
Proof.
  intros Hn. unfold collectResults.
  destruct (collect_loop_spec r results 0 expected expected true st) as (st1 & H1 & Hr1).
  { by rewrite Z.sub_0_r. }
  rewrite Z.sub_0_r in H1, Hr1.
  unfold mbind at 1, M_bind at 1. rewrite H1. simpl.
  unfold mbind, M_bind. rewrite renderAll_spec. simpl.
  eexists. split; [reflexivity|]. simpl. by rewrite Hr1, <- app_assoc.
Qed.

Lemma collectResults_waits r (results : list execResult) (expected : Z) st :
  (length results < Z.to_nat expected)%nat →
  collectResults r results expected st = None.
Proof.
  intros Hn. unfold collectResults. unfold mbind at 1, M_bind at 1.
  rewrite collect_loop_waits; [done|]. by rewrite Z.sub_0_r.
Qed.
End EngineFacts.

(** ** The run of [RunProject] *)

Section SystemFacts.

Context {W : Type} `{!ImageRunner W} `{!Runtime W} `{!Library}.

Implicit Types (st : State W) (r : ImgRunner) (suite : Suite) (s : @Sys W).

Lemma forallb_snoc {A : Type} (p : A → bool) (l : list A) (a : A) :
  forallb p (l ++ [a]) = forallb p l && p a.
Proof. rewrite forallb_app. simpl. by rewrite andb_true_r. Qed.

Lemma step_submit_inv (fuel : nat) r (expected : Z) s :
  inv fuel r expected s → inv fuel r expected (step_submit s).
Proof.
  intros Hinv. unfold step_submit.
  destruct (pending s) as [|suite rest] eqn:Hpend; [done|].
  destruct (can_send (suitesCh (pool s))); [|done].
  destruct Hinv as [Hw Hs Hres Hi Hle Hp Hpass Hret].
  constructor; simpl; try done.
  rewrite <- Hs, Hpend, <- !app_assoc. done.
Qed.

Lemma step_worker_inv (fuel : nat) r (expected : Z) (k : nat) s s' :
  step_worker fuel r k s = Some s' →
  inv fuel r expected s → inv fuel r expected s'.
Proof.
  intros Hstep Hinv. pose proof Hinv as [[w Hw] Hs Hres Hi Hle Hp Hpass Hret].
  unfold step_worker in Hstep. rewrite Hw in Hstep, Hres.
  destruct k as [|k]; simpl in Hstep; [|by inversion Hstep; subst].
  destruct w as [|res].
  - destruct (buf (suitesCh (pool s))) as [|suite rest] eqn:Hbuf.
    { by inversion Hstep; subst. }
    destruct (runSuites_iter fuel r suite (state s)) as [[res st']|] eqn:Hit; [|done].
    simpl in Hstep. inversion Hstep; subst s'. clear Hstep.
    constructor; simpl; try done.
    + eauto.
    + rewrite <- Hs, <- !app_assoc. done.
    + simpl in Hres. rewrite app_nil_r in Hres.
      rewrite app_assoc. apply Forall2_app; [done|].
      constructor; [|constructor]. by exists (state s), st'.
  - destruct (can_send (resultsCh (pool s))); [|by inversion Hstep; subst].
    inversion Hstep; subst s'. clear Hstep.
    constructor; simpl; try done.
    + eauto.
    + simpl in Hres. by rewrite app_nil_r.
Qed.

Lemma step_main_inv (fuel : nat) r (expected : Z) s s' :
  step_main r expected s = Some s' →
  inv fuel r expected s → inv fuel r expected s'.
Proof.
  intros Hstep Hinv. pose proof Hinv as [Hw Hs Hres Hi Hle Hp Hpass Hret].
  unfold step_main in Hstep.
  destruct (returned s) as [b|] eqn:Hr; [by inversion Hstep; subst|].
  destruct (col_i s <? expected) eqn:Hlt.
  - apply Z.ltb_lt in Hlt.
    destruct (buf (resultsCh (pool s))) as [|res rest] eqn:Hbuf.
    { by inversion Hstep; subst. }
    destruct (collect_one_spec r res (col_passed s) (state s)) as (st' & Hone & _).
    rewrite Hone in Hstep. simpl in Hstep. inversion Hstep; subst s'. clear Hstep.
    constructor; simpl; try done.
    + by rewrite <- !app_assoc.
    + rewrite length_app. simpl. lia.
    + lia.
    + lia.
    + by rewrite forallb_snoc, Hpass.
  - apply Z.ltb_ge in Hlt.
    rewrite renderAll_spec in Hstep. simpl in Hstep.
    inversion Hstep; subst s'. clear Hstep.
    constructor; simpl; try done.
    intros b Hb. inversion Hb; subst. split; [done|lia].
Qed.

Lemma step_inv (fuel : nat) r (expected : Z) (g : goroutine) s s' :
  step fuel r expected g s = Some s' →
  inv fuel r expected s → inv fuel r expected s'.
Proof.
  destruct g as [|k|]; simpl; intros Hstep Hinv.
  - inversion Hstep; subst. by apply step_submit_inv.
  - by eapply step_worker_inv.
  - by eapply step_main_inv.
Qed.

Lemma run_inv (fuel : nat) r (expected : Z) (sched : list goroutine) :
  ∀ s s', run fuel r expected sched s = Some s' →
          inv fuel r expected s → inv fuel r expected s'.
Proof.
  induction sched as [|g rest IH]; intros s s' Hrun Hinv; simpl in Hrun.
  - by inversion Hrun; subst.
  - destruct (step fuel r expected g s) as [s1|] eqn:Hstep; [|done].
    simpl in Hrun. eapply IH; [done|]. by eapply step_inv.
Qed.

(** Once the aggregator has returned, it has received the result of
    every suite of the project, in the order of the suites, and nothing
    is left on the way. *)
Lemma inv_returned_all (fuel : nat) r s (b : bool) :
  inv fuel r (Z.of_nat (length (Suites (RunnerProject r)))) s →
  returned s = Some b →
  Forall2 (result_of fuel r) (Suites (RunnerProject r)) (received s) ∧
  b = forallb noError (received s).
Proof.
  intros [Hw Hs Hres Hi Hle Hp Hpass Hret] Hb.
  destruct (Hret b Hb) as [-> Hall]. split; [|done].
  rewrite Hi in Hall. apply Nat2Z.inj in Hall.
  pose proof (Forall2_length _ _ _ Hres) as Hlen.
  pose proof (f_equal length Hs) as Hlen'.
  rewrite !length_app in Hlen, Hlen'.
  assert (Hrest : buf (resultsCh (pool s)) ++ held (workers (pool s)) = []).
  { apply nil_length_inv. rewrite length_app. lia. }
  assert (Hnone : buf (suitesCh (pool s)) ++ pending s = []).
  { apply nil_length_inv. rewrite length_app. lia. }
  rewrite Hrest, app_nil_r in Hres. rewrite Hnone, app_nil_r in Hs.
  by rewrite <- Hs.
Qed.

Lemma createWorkerPool_1_0 :
  createWorkerPool 1 0 = Some (mkPool (mkChan 1 []) (mkChan 1 []) [Receiving]).
Proof. reflexivity. Qed.

Lemma RunProject_sys_start (fuel : nat) (sched : list goroutine) r (w : W) :
  RunProject_sys fuel sched r w =
    run fuel (withRootCtx r) (Z.of_nat (length (Suites (RunnerProject r)))) sched
        (idle (Suites (RunnerProject r)) 0 (Z.of_nat (length (Suites (RunnerProject r))))
              true (mkState w [] []) [] []).
Proof. reflexivity. Qed.

Lemma idle_inv (fuel : nat) r st :
  inv fuel r (Z.of_nat (length (Suites (RunnerProject r))))
      (idle (Suites (RunnerProject r)) 0 (Z.of_nat (length (Suites (RunnerProject r))))
            true st [] []).
Proof.
  constructor; simpl; [eauto|done|constructor|done|lia|lia|done|done].
Qed.

Lemma run_app (fuel : nat) r (expected : Z) (a b : list goroutine) :
  ∀ s, run fuel r expected (a ++ b) s
       = match run fuel r expected a s with
         | Some s1 => run fuel r expected b s1
         | None => None
         end.
Proof.
  induction a as [|g a IH]; intros s; simpl; [done|].
  destruct (step fuel r expected g s) as [s1|]; simpl; [apply IH|done].
Qed.

Lemma round_idle (fuel : nat) r (expected : Z) suite (rest : list Suite)
    (i inProgress : Z) (passed passed' : bool) st st1 st2 (tk : list Suite)
    (rc : list execResult) (res : execResult) :
  i < expected →
  runSuites_iter fuel r suite st = Some (res, st1) →
  collect_one r res passed st1 = Some (passed', st2) →
  run fuel r expected round (idle (suite :: rest) i inProgress passed st tk rc)
    = Some (idle rest (i + 1) (inProgress - 1) passed' st2 (tk ++ [suite]) (rc ++ [res])).
Proof.
  intros Hlt Hit Hone. apply Z.ltb_lt in Hlt.
  pose (p1 := mkPool (mkChan 1 [suite]) (mkChan 1 []) [Receiving]).
  pose (p2 := mkPool (mkChan 1 []) (mkChan 1 []) [Sending res]).
  pose (p3 := mkPool (mkChan 1 []) (mkChan 1 [res]) [Receiving]).
  assert (E1 : step_submit (idle (suite :: rest) i inProgress passed st tk rc)
               = mkSys rest p1 i inProgress passed None st tk rc) by reflexivity.
  assert (E2 : step_worker fuel r 0 (mkSys rest p1 i inProgress passed None st tk rc)
               = Some (mkSys rest p2 i inProgress passed None st1 (tk ++ [suite]) rc)).
  { unfold step_worker. simpl. rewrite Hit. reflexivity. }
  assert (E3 : step_worker fuel r 0
                 (mkSys rest p2 i inProgress passed None st1 (tk ++ [suite]) rc)
               = Some (mkSys rest p3 i inProgress passed None st1 (tk ++ [suite]) rc))
    by reflexivity.
  assert (E4 : step_main r expected
                 (mkSys rest p3 i inProgress passed None st1 (tk ++ [suite]) rc)
               = Some (idle rest (i + 1) (inProgress - 1) passed' st2 (tk ++ [suite])
                            (rc ++ [res]))).
  { unfold step_main. simpl. rewrite Hlt, Hone. reflexivity. }
  unfold round. cbn [run step]. rewrite E1. cbn [mbind option_bind].
  rewrite E2. cbn [mbind option_bind]. rewrite E3. cbn [mbind option_bind].
  rewrite E4. reflexivity.
Qed.

(** The schedule [rounds] brings [RunProject] to its return, if the
    environment ends every polling. *)
Lemma rounds_complete r (expected : Z) :
  (∀ c id w, polls_end c id w) →
  ∀ (pend : list Suite) (i inProgress : Z) (passed : bool) st (tk : list Suite)
    (rc : list execResult),
    i + Z.of_nat (length pend) = expected →
    ∃ fuel0 : nat, ∀ fuel : nat, (fuel0 ≤ fuel)%nat →
      ∃ s', run fuel r expected (rounds (length pend))
                (idle pend i inProgress passed st tk rc) = Some s' ∧
            is_Some (returned s').
Proof.
  intros Hends. induction pend as [|suite rest IH];
    intros i inProgress passed st tk rc Hlen.
  - exists 0%nat. intros fuel _. simpl in *.
    unfold step_main, idle. cbn [returned col_i].
    assert (Hge : (i <? expected) = false) by (apply Z.ltb_ge; lia).
    rewrite Hge, renderAll_spec. simpl. eauto.
  - destruct (runSuites_iter_total r suite st Hends) as (f1 & [res st1] & Hit).
    destruct (collect_one_spec r res passed st1) as (st2 & Hone & _).
    destruct (IH (i + 1) (inProgress - 1) (passed && noError res) st2
                 (tk ++ [suite]) (rc ++ [res])) as [f2 Hrest].
    { simpl in Hlen. lia. }
    exists (f1 `max` f2)%nat. intros fuel Hfuel.
    cbn [rounds length]. rewrite run_app.
    rewrite (round_idle fuel r expected suite rest i inProgress passed
               (passed && noError res) st st1 st2 tk rc res).
    + apply Hrest. lia.
    + simpl in Hlen. lia.
    + apply (runSuites_iter_mono f1); [lia|done].
    + done.
Qed.

End SystemFacts.

(** ** Further facts for the claims *)

Section MoreFacts.

Context {W : Type} `{!ImageRunner W} `{!Runtime W} `{!Library}.

Implicit Types (st : State W) (r : ImgRunner) (suite : Suite) (s : @Sys W).

(** A key of the merged environment has the value of the defaults when
    the defaults set it, and the value of the suite otherwise. *)
Lemma mergeEnv_lookup (se de : option (gmap string string)) (k : string) :
  ∃ env, mergeEnv se de = Some env ∧
         env !! k = match default ∅ de !! k with
                    | Some v => Some v
                    | None => default ∅ se !! k
                    end.
Proof.
  unfold mergeEnv. eexists. split; [reflexivity|].
  assert (Hse : match se with Some m => m | None => ∅ end = default ∅ se)
    by (by destruct se).
  rewrite Hse. generalize (default ∅ se). intros env0.
  apply (map_fold_weak_ind
           (λ (acc : gmap string string) (m : gmap string string),
              acc !! k = match m !! k with Some v => Some v | None => env0 !! k end)).
  - by rewrite lookup_empty.
  - intros i x m acc Hi IH.
    destruct (decide (i = k)) as [->|Hne].
    + by rewrite !lookup_insert_eq.
    + by rewrite !lookup_insert_ne.
Qed.

Lemma DownloadArtifacts_calls r (runnerID suiteName : string) st :
  ∃ st', DownloadArtifacts r runnerID suiteName st = Some (tt, st') ∧
         reports st' = reports st ∧
         calls st' = calls st ++ artifact_calls r runnerID suiteName (world st).
Proof.
  destruct (DownloadArtifacts_spec r runnerID suiteName st) as (st' & Hd & Hr & Hc).
  exists st'. split; [done|]. split; [done|]. exact Hc.
Qed.

(** A download call for [f] is among the calls for a listing exactly
    when [f] is listed and matches a pattern. *)
Lemma downloads_elem r (runnerID dir : string) (files : list string) (f : string) :
  CallDownloadArtifact (ctx r) runnerID f dir ∈ downloads r runnerID dir files ↔
  f ∈ files ∧ matches (Match (ProjectArtifacts (RunnerProject r))) f = true.
Proof.
  unfold downloads. rewrite list_elem_of_fmap. split.
  - intros (g & Heq & Hin). inversion Heq; subst g.
    apply list_elem_of_In, filter_In in Hin as [Hin Hm].
    by rewrite list_elem_of_In.
  - intros [Hin Hm]. exists f. split; [done|].
    apply list_elem_of_In, filter_In. by rewrite <- list_elem_of_In.
Qed.

(** A name listed once is downloaded at most once. *)
Lemma downloads_NoDup r (runnerID dir : string) (files : list string) :
  NoDup files → NoDup (downloads r runnerID dir files).
Proof.
  intros Hnd. unfold downloads. apply NoDup_fmap_2.
  - intros f g Heq. by inversion Heq.
  - apply NoDup_ListNoDup, List.NoDup_filter. by apply NoDup_ListNoDup.
Qed.

Lemma downloads_length r (runnerID dir : string) (files : list string) :
  (length (downloads r runnerID dir files) ≤ length files)%nat.
Proof. unfold downloads. rewrite length_map. apply List.filter_length_le. Qed.



End MoreFacts.

(** The scripted world ends every polling: its script of wake-ups is
    finite and the deadline fires when it is over. *)
Lemma sim_polls_end (c : Context) (id : string) (w : Sim.World) : polls_end c id w.
Proof.
  remember (Sim.wakes w) as ws eqn:Hws. revert w Hws.
  induction ws as [|[e|] ws IH]; intros w Hws.
  - apply polls_end_done. simpl. unfold Sim.sim_select. by rewrite <- Hws.
  - apply polls_end_done. simpl. unfold Sim.sim_select. by rewrite <- Hws.
  - assert (Hsel : select_wake c w
                   = (WakeTick, Sim.mkWorld (Sim.rootErr w) (Sim.attemptErr w)
                        (Sim.triggers w) ws (Sim.statuses w) (Sim.stopErr w)
                        (Sim.listing w) (Sim.downloadErr w) (Sim.mkdirErr w)
                        (Sim.clock w))).
    { simpl. unfold Sim.sim_select. by rewrite <- Hws. }
    destruct (Sim.statuses w) as [|a rest] eqn:Hst.
    + apply polls_end_answer; rewrite Hsel; [done|]. left. done.
    + apply polls_end_later; rewrite Hsel; [done|]. apply IH. done.
Qed.

(** * The specification, statement by statement *)

Section Specification.

Context {W : Type} `{!ImageRunner W} `{!Runtime W} `{!Library}.

Implicit Types (st : State W) (r : ImgRunner) (suite : Suite) (s : @Sys W).

(** C2: a suite received after the shared context has been cancelled is
    skipped.  The turn of the worker returns with the log of Job Client
    calls as it was, so no call at all is made, and the result it sends
    has the status Cancelled and the cancellation error. *)
Theorem cancelled_suite_is_skipped (fuel : nat) r suite st :
  cancelled_at_dequeue r st →
  ∃ res st',
    runSuites_iter fuel r suite st = Some (res, st') ∧
    calls st' = calls st ∧
    status res = StateCancelled ∧
    err res = Some ErrSuiteCancelled.
Proof.
  intros Hc. rewrite (runSuites_iter_skip fuel r suite st Hc).
  eexists _, _. split; [reflexivity|]. done.
Qed.

(** C10: the result sent for a skipped suite has [attempts = 0] and an
    empty [runID]; every other result, and so every result sent after a
    call on the Job Client, has [attempts = 1]. *)
Theorem attempts_of_result (fuel : nat) r suite st res st' :
  runSuites_iter fuel r suite st = Some (res, st') →
  (cancelled_at_dequeue r st → attempts res = 0 ∧ runID res = "") ∧
  (¬ cancelled_at_dequeue r st → attempts res = 1) ∧
  ∃ new, calls st' = calls st ++ new ∧ (new ≠ [] → attempts res = 1).
Proof.
  intros Hit.
  apply runSuites_iter_log in Hit as (_ & _ & new & Hcalls & _ & Hskip & Hran).
  split; [intros Hc; by apply Hskip|]. split; [done|].
  exists new. split; [done|]. intros Hne.
  destruct (cancelled_at_dequeue_dec r st) as [Hc|Hc]; [|by apply Hran].
  by destruct (Hskip Hc) as [-> _].
Qed.


(** C3: when the polling of a submitted job returns an error that is a
    deadline or a cancellation error and the context of the attempt is
    done, the attempt makes one stop request for the job on
    [context.Background()], a context the attempt's context does not
    reach, and returns whatever that request answers.  The job is given
    the status Cancelled in both cases; the error tells them apart: the
    timeout error for the deadline, which is tested first, the
    cancellation error for the cancellation. *)
Theorem expiry_while_running_stops_job (fuel : nat) r suite st (runner run : Runner)
    (perr : option error) (st3 : State W) :
  polled fuel r suite st runner run perr st3 →
  expired r suite st3 →
  (Is perr DeadlineExceeded = true →
     runSuite fuel r suite st
       = Some ((setStatus run StateCancelled,
                Some (SuiteTimeoutError (attemptTimeout suite))),
               stopped runner st3)) ∧
  (Is perr DeadlineExceeded = false →
   Is perr Canceled = true →
     runSuite fuel r suite st
       = Some ((setStatus run StateCancelled, Some ErrSuiteCancelled),
               stopped runner st3)) ∧
  calls (stopped runner st3) = calls st3 ++ [CallStopRun Background (ID runner)] ∧
  derived_from Background (attemptCtx r suite) = false.
Proof.
  intros Hp Hexp. rewrite (runSuite_polled _ _ _ _ _ _ _ _ Hp).
  unfold afterPoll, expired in *. cbv zeta.
  rewrite (bool_decide_eq_true_2 _ Hexp), !andb_true_r.
  split; [by intros ->|]. split; [|done].
  by intros -> ->.
Qed.

(** C4: an attempt that ends by its timeout makes exactly one stop
    request when the timeout is met while the job is polled, and none
    when it is met in the answer of the submission, where there is no
    job to stop.  Both end with the timeout error and the status
    Cancelled. *)
Theorem timeout_stop_calls (fuel : nat) r suite st :
  (∀ (runner run : Runner) (perr : option error) (st3 : State W),
     polled fuel r suite st runner run perr st3 →
     expired r suite st3 →
     Is perr DeadlineExceeded = true →
     ∃ new,
       runSuite fuel r suite st
         = Some ((setStatus run StateCancelled,
                  Some (SuiteTimeoutError (attemptTimeout suite))),
                 stopped runner st3) ∧
       calls (stopped runner st3) = calls st ++ new ∧
       count_calls is_StopRun new = 1%nat) ∧
  (∀ (runner : Runner) (serr : option error) (st2 : State W),
     submitted r suite st runner serr st2 →
     expired r suite st2 →
     Is serr DeadlineExceeded = true →
     ∃ new,
       runSuite fuel r suite st
         = Some ((setStatus zeroRunner StateCancelled,
                  Some (SuiteTimeoutError (attemptTimeout suite))), st2) ∧
       calls st2 = calls st ++ new ∧
       count_calls is_StopRun new = 0%nat).
Proof.
  split.
  - intros runner run perr st3 Hp Hexp Hd.
    pose proof (runSuite_polled _ _ _ _ _ _ _ _ Hp) as Hrun.
    unfold afterPoll, expired in *. cbv zeta in Hrun.
    rewrite Hd, (bool_decide_eq_true_2 _ Hexp) in Hrun. simpl in Hrun.
    destruct Hp as (st2 & (files & st1 & Hmf & Htr & ->) & Hpoll).
    destruct (mapFiles_total (Files suite) st) as (x & st1' & Hmf' & Hc1 & _).
    rewrite Hmf in Hmf'. inversion Hmf'; subst x st1'.
    apply PollRun_log in Hpoll as (n & Hc3 & _). simpl in Hc3.
    eexists. split; [exact Hrun|]. split.
    + unfold stopped. simpl. rewrite Hc3, Hc1, <- !app_assoc. reflexivity.
    + rewrite !count_calls_app, count_calls_polls by done. reflexivity.
  - intros runner serr st2 Hsub Hexp Hd.
    pose proof (runSuite_submitted fuel _ _ _ _ _ _ Hsub) as Hrun.
    unfold expired in *. cbv zeta in Hrun.
    rewrite Hd, (bool_decide_eq_true_2 _ Hexp) in Hrun. simpl in Hrun.
    destruct Hsub as (files & st1 & Hmf & Htr & ->).
    destruct (mapFiles_total (Files suite) st) as (x & st1' & Hmf' & Hc1 & _).
    rewrite Hmf in Hmf'. inversion Hmf'; subst x st1'.
    eexists. split; [exact Hrun|]. split.
    + simpl. rewrite Hc1. reflexivity.
    + reflexivity.
Qed.


(** C5: the merge of the defaults into a suite.  The name gets the
    name of the defaults in front; image, pull credentials, entry point
    and timeout come from the defaults only when the suite leaves them
    at their zero value; files and artifacts are those of the suite
    followed by those of the defaults; an environment key that only one
    side sets keeps the value of that side.  The turn of the worker
    runs the merged suite and returns one result, under its name, and a
    worker returns as many results as it received suites. *)
Theorem defaults_merge r suite :
  let d := Defaults (RunnerProject r) in
  let m := merged r suite in
  Name m = (if bool_decide (Name d ≠ "") then Name d +:+ " " +:+ Name suite
            else Name suite) ∧
  Image m = (if bool_decide (Image suite = "") then Image d else Image suite) ∧
  ImagePullAuth m
    = (if bool_decide (User (ImagePullAuth suite) = "")
          && bool_decide (Token (ImagePullAuth suite) = "")
       then ImagePullAuth d else ImagePullAuth suite) ∧
  EntryPoint m
    = (if bool_decide (EntryPoint suite = "") then EntryPoint d else EntryPoint suite) ∧
  Timeout m = (if bool_decide (Timeout suite = 0) then Timeout d else Timeout suite) ∧
  Files m = Files suite ++ Files d ∧
  Artifacts m = Artifacts suite ++ Artifacts d ∧
  (∃ env : gmap string string,
     Env m = Some env ∧
     ∀ k : string,
       (default ∅ (Env d) !! k = None → env !! k = default ∅ (Env suite) !! k) ∧
       (default ∅ (Env suite) !! k = None → env !! k = default ∅ (Env d) !! k)) ∧
  (∀ (fuel : nat) st (res : execResult) (st' : State W),
     runSuites_iter fuel r suite st = Some (res, st') →
     name res = Name m ∧
     ∃ new, calls st' = calls st ++ new ∧ attempt_calls r m new) ∧
  (∀ (fuel : nat) (suites : list Suite) st (results : list execResult) (st' : State W),
     runSuites fuel r suites st = Some (results, st') →
     length results = length suites) ∧
  ((∀ c id w, polls_end c id w) →
   ∀ st, ∃ (fuel : nat) (res : execResult) (st' : State W),
     runSuites_iter fuel r suite st = Some (res, st')).
Proof.
  cbv zeta. do 7 (split; [reflexivity|]). split; [|split; [|split]].
  - destruct (mergeEnv_lookup (Env suite) (Env (Defaults (RunnerProject r))) "")
      as (env & Henv & _).
    exists env. split; [exact Henv|]. intros k.
    destruct (mergeEnv_lookup (Env suite) (Env (Defaults (RunnerProject r))) k)
      as (env' & Henv' & Hk).
    unfold merged, applyDefaults in *. simpl in *.
    rewrite Henv in Henv'. inversion Henv'; subst env'.
    split; intros Hnone; rewrite Hk.
    + by rewrite Hnone.
    + rewrite Hnone. by destruct (default ∅ (Env (Defaults (RunnerProject r))) !! k).
  - intros fuel st res st' Hit.
    apply runSuites_iter_log in Hit as (_ & Hname & new & Hc & Hshape & _).
    split; [done|]. eauto.
  - intros fuel suites st results st' Hrun.
    apply runSuites_log in Hrun as (_ & Hres & _).
    symmetry. by eapply Forall2_length.
  - intros Hends st.
    destruct (runSuites_iter_total r suite st Hends) as (fuel & [res st'] & Hit). eauto.
Qed.


(** C6: the aggregator takes exactly [expected] results from the channel:
    with that many there it returns, having left the others, and with
    fewer it does not return.  Its verdict is the conjunction of
    "no error" over the results taken.  Under every schedule, once
    [RunProject] returns, the aggregator has received the result of each
    suite of the project, one per suite and in their order, the exit
    status is 0 when none of them has an error and 1 otherwise, and the
    error returned is nil.  [RunProject] returns under the schedule that
    serves the suites in turn, if the environment ends every polling. *)
Theorem aggregate_verdict r :
  (∀ (results : list execResult) (expected : Z) st,
     (Z.to_nat expected ≤ length results)%nat →
     ∃ st', collectResults r results expected st
            = Some ((forallb noError (take (Z.to_nat expected) results),
                     drop (Z.to_nat expected) results), st')) ∧
  (∀ (results : list execResult) (expected : Z) st,
     (length results < Z.to_nat expected)%nat →
     collectResults r results expected st = None) ∧
  (∀ (fuel : nat) (sched : list goroutine) (w : W) s (b : bool),
     RunProject_sys fuel sched r w = Some s →
     returned s = Some b →
     Forall2 (result_of fuel (withRootCtx r)) (Suites (RunnerProject r)) (received s) ∧
     b = forallb noError (received s) ∧
     RunProject fuel sched r w = Some (if b then 0 else 1, None) ∧
     (RunProject fuel sched r w = Some (0, None)
        ↔ Forall (λ res, err res = None) (received s))) ∧
  ((∀ c id w, polls_end c id w) →
   ∀ w : W, ∃ (fuel : nat) (code : Z),
     RunProject fuel (rounds (length (Suites (RunnerProject r)))) r w
       = Some (code, None)).
Proof.
  split; [|split; [|split]].
  - intros results expected st Hn.
    destruct (collectResults_spec r results expected st Hn) as (st' & Hc & _). eauto.
  - intros results expected st Hn. by apply collectResults_waits.
  - intros fuel sched w s b Hrun Hret.
    pose proof Hrun as Hrun'. rewrite RunProject_sys_start in Hrun'.
    apply run_inv in Hrun'; [|apply (idle_inv fuel (withRootCtx r))].
    destruct (inv_returned_all fuel (withRootCtx r) s b Hrun' Hret) as [Hall Hb].
    split; [done|]. split; [done|].
    assert (Hcode : RunProject fuel sched r w = Some (if b then 0 else 1, None)).
    { unfold RunProject. rewrite Hrun. simpl. rewrite Hret. simpl. by destruct b. }
    split; [done|]. rewrite Hcode, Hb. split.
    + intros Heq. apply Forall_forall. intros res Hin.
      destruct (forallb noError (received s)) eqn:Hf; [|by inversion Heq].
      rewrite forallb_forall in Hf. apply list_elem_of_In in Hin.
      apply Hf in Hin. unfold noError in Hin. by apply bool_decide_eq_true in Hin.
    + intros Hf. assert (Ht : forallb noError (received s) = true).
      { apply forallb_forall. intros res Hin. apply list_elem_of_In in Hin.
        rewrite Forall_forall in Hf. unfold noError. apply bool_decide_eq_true.
        by apply Hf. }
      by rewrite Ht.
  - intros Hends w.
    destruct (rounds_complete (withRootCtx r)
                (Z.of_nat (length (Suites (RunnerProject r)))) Hends
                (Suites (RunnerProject r)) 0
                (Z.of_nat (length (Suites (RunnerProject r)))) true
                (mkState w [] []) [] []) as [fuel Hcomplete]; [lia|].
    destruct (Hcomplete fuel ltac:(lia)) as (s' & Hrun & [b Hb]).
    exists fuel, (if b then 0 else 1).
    unfold RunProject. rewrite RunProject_sys_start. simpl in *. rewrite Hrun.
    simpl. rewrite Hb. simpl. by destruct b.
Qed.

(** C8: the collection of artifacts.  The handling of a result always
    returns, with a verdict that depends on the verdict so far and on
    the error of the result alone, so no failure of the collection
    changes it.  The collection runs only for a result whose status is
    not Cancelled and under a configuration that enables the download.
    It always returns; when the directory of the suite cannot be
    created it calls nothing; otherwise it lists once and then, whatever
    the listing and the downloads answer, it downloads into that
    directory the listed names that match a pattern, a name exactly
    when it is listed and matches, and once for a name listed once. *)
Theorem artifact_collection r :
  let cfg := ProjectArtifacts (RunnerProject r) in
  (∀ (res : execResult) (passed : bool) st,
     ∃ st', collect_one r res passed st = Some (passed && noError res, st') ∧
     ∃ new, calls st' = calls st ++ new ∧
            (collects r res passed = false → new = []) ∧
            (collects r res passed = true →
               new = artifact_calls r (runID res) (name res) (world st))) ∧
  (∀ (res : execResult) (passed : bool),
     collects r res passed = true →
     status res ≠ StateCancelled ∧ DownloadWhen cfg ≠ WhenNever) ∧
  (∀ (runnerID suiteName : string) st,
     ∃ st', DownloadArtifacts r runnerID suiteName st = Some (tt, st') ∧
            calls st' = calls st ++ artifact_calls r runnerID suiteName (world st)) ∧
  (∀ (runnerID suiteName : string) (w : W),
     (GetSuiteArtifactFolder suiteName cfg w).1.2 ≠ None →
     artifact_calls r runnerID suiteName w = []) ∧
  (∀ (runnerID suiteName : string) (w : W),
     (GetSuiteArtifactFolder suiteName cfg w).1.2 = None →
     artifact_calls r runnerID suiteName w
       = CallListArtifacts (ctx r) runnerID
           :: downloads r runnerID (GetSuiteArtifactFolder suiteName cfg w).1.1
                (ListArtifacts (ctx r) runnerID
                   (GetSuiteArtifactFolder suiteName cfg w).2).1.1) ∧
  (∀ (runnerID dir : string) (files : list string) (f : string),
     CallDownloadArtifact (ctx r) runnerID f dir ∈ downloads r runnerID dir files
       ↔ f ∈ files ∧ matches (Match cfg) f = true) ∧
  (∀ (runnerID dir : string) (files : list string),
     (length (downloads r runnerID dir files) ≤ length files)%nat ∧
     (NoDup files → NoDup (downloads r runnerID dir files))).
Proof.
  cbv zeta. split; [|split; [|split; [|split; [|split; [|split]]]]].
  - intros res passed st.
    destruct (collect_one_spec r res passed st) as (st' & Hone & _ & new & Hc & Hno & Hyes).
    exists st'. split; [done|]. exists new. split; [done|]. split; [done|].
    intros Hcol. destruct (Hyes Hcol) as (st1 & Hd & Hc1).
    destruct (DownloadArtifacts_calls r (runID res) (name res) st) as (st1' & Hd' & _ & Hc1').
    rewrite Hd in Hd'. inversion Hd'; subst st1'.
    rewrite Hc1 in Hc1'. by apply app_inv_head in Hc1'.
  - intros res passed. unfold collects, ShouldDownloadArtifact.
    destruct (bool_decide (runID res = "")); [done|].
    destruct (bool_decide (status res ≠ StateCancelled)) eqn:Hs; [|done].
    apply bool_decide_eq_true in Hs. simpl.
    destruct (DownloadWhen _); done.
  - intros runnerID suiteName st.
    destruct (DownloadArtifacts_calls r runnerID suiteName st) as (st' & Hd & _ & Hc).
    eauto.
  - intros runnerID suiteName w Herr. unfold artifact_calls. cbv zeta.
    by destruct ((GetSuiteArtifactFolder _ _ w).1.2).
  - intros runnerID suiteName w Herr. unfold artifact_calls. cbv zeta.
    by rewrite Herr.
  - intros runnerID dir files f. apply downloads_elem.
  - intros runnerID dir files. split; [apply downloads_length|apply downloads_NoDup].
Qed.

End Specification.

Lemma cancelled_suite_is_skipped_witness :
  ∃ res st',
    runSuites_iter 1 (Sim.runnerOf []) (Sim.plainSuite "G") (Sim.start Sim.cancelledWorld)
      = Some (res, st') ∧
    calls st' = calls (Sim.start Sim.cancelledWorld) ∧
    status res = StateCancelled ∧
    err res = Some ErrSuiteCancelled.
Proof.
  apply cancelled_suite_is_skipped. vm_compute. intros Hnone. discriminate Hnone.
Defined.

Lemma attempts_of_result_witness :
  ∃ res st',
    runSuites_iter 3 (Sim.runnerOf []) (Sim.plainSuite "D") (Sim.start Sim.retryWorld)
      = Some (res, st') ∧
    attempts res = 1.
Proof.
  eexists _, _. split; [vm_compute; reflexivity|].
  refine (proj1 (proj2 (attempts_of_result 3 (Sim.runnerOf []) (Sim.plainSuite "D")
                          (Sim.start Sim.retryWorld) _ _ _)) _).
  - vm_compute. reflexivity.
  - vm_compute. intros Hc. apply Hc. reflexivity.
Defined.


Lemma expiry_while_running_stops_job_witness :
  ∃ (run runner : Runner) (st3 : State Sim.World),
    runSuite 3 (Sim.runnerOf []) (Sim.plainSuite "E") (Sim.start Sim.expiryWorld)
      = Some ((setStatus run StateCancelled,
               Some (SuiteTimeoutError (attemptTimeout (Sim.plainSuite "E")))),
              stopped runner st3).
Proof.
  eexists _, _, _.
  refine (proj1 (expiry_while_running_stops_job 3 (Sim.runnerOf []) (Sim.plainSuite "E")
                   (Sim.start Sim.expiryWorld) _ _ (Some DeadlineExceeded) _ _ _) _).
  - eexists. split.
    + eexists _, _. split; [vm_compute; reflexivity|].
      split; [vm_compute; reflexivity|reflexivity].
    + vm_compute. reflexivity.
  - vm_compute. intros Hnone. discriminate Hnone.
  - reflexivity.
Defined.

(** C3, as stated, fails: suite E runs past its deadline, the job is
    stopped once, and the result carries the timeout error, but its
    status is Cancelled, not TimedOut. *)
Lemma timeout_is_reported_as_cancelled :
  (λ x, (status x.1, err x.1, count_calls is_StopRun (calls x.2)))
    <$> runSuites_iter 3 (Sim.runnerOf []) (Sim.plainSuite "E")
          (Sim.start Sim.expiryWorld)
  = Some ("Cancelled", Some (SuiteTimeoutError (24 * Hour)), 1%nat) ∧
  "Cancelled" ≠ "TimedOut".
Proof. split; [vm_compute; reflexivity|discriminate]. Qed.

Lemma timeout_stop_calls_witness :
  (∃ (run runner : Runner) (st3 : State Sim.World) (new : list Call),
     runSuite 3 (Sim.runnerOf []) (Sim.plainSuite "E") (Sim.start Sim.expiryWorld)
       = Some ((setStatus run StateCancelled,
                Some (SuiteTimeoutError (attemptTimeout (Sim.plainSuite "E")))),
               stopped runner st3) ∧
     calls (stopped runner st3) = calls (Sim.start Sim.expiryWorld) ++ new ∧
     count_calls is_StopRun new = 1%nat) ∧
  (∃ (st2 : State Sim.World) (new : list Call),
     runSuite 3 (Sim.runnerOf []) (Sim.plainSuite "E") (Sim.start Sim.lateSubmitWorld)
       = Some ((setStatus zeroRunner StateCancelled,
                Some (SuiteTimeoutError (attemptTimeout (Sim.plainSuite "E")))), st2) ∧
     calls st2 = calls (Sim.start Sim.lateSubmitWorld) ++ new ∧
     count_calls is_StopRun new = 0%nat).
Proof.
  split.
  - eexists _, _, _.
    refine (proj1 (timeout_stop_calls 3 (Sim.runnerOf []) (Sim.plainSuite "E")
                     (Sim.start Sim.expiryWorld)) _ _ (Some DeadlineExceeded) _ _ _ _).
    + eexists. split.
      * eexists _, _. split; [vm_compute; reflexivity|].
        split; [vm_compute; reflexivity|reflexivity].
      * vm_compute. reflexivity.
    + vm_compute. intros Hnone. discriminate Hnone.
    + reflexivity.
  - eexists.
    refine (proj2 (timeout_stop_calls 3 (Sim.runnerOf []) (Sim.plainSuite "E")
                     (Sim.start Sim.lateSubmitWorld)) _
                  (Some (wrapError "Post /runs" DeadlineExceeded)) _ _ _ _).
    + eexists _, _. split; [vm_compute; reflexivity|].
      split; [vm_compute; reflexivity|reflexivity].
    + vm_compute. intros Hnone. discriminate Hnone.
    + reflexivity.
Defined.

(** C4, as stated, fails: when the deadline fires during the submission
    the attempt ends with the timeout error and no stop request has
    been made. *)
Lemma timeout_during_submission_makes_no_stop_call :
  (λ x, (Status x.1.1, x.1.2, count_calls is_StopRun (calls x.2)))
    <$> runSuite 3 (Sim.runnerOf []) (Sim.plainSuite "E")
          (Sim.start Sim.lateSubmitWorld)
  = Some ("Cancelled", Some (SuiteTimeoutError (24 * Hour)), 0%nat).
Proof. vm_compute. reflexivity. Qed.



Lemma defaults_merge_witness :
  ∃ (fuel : nat) (res : execResult) (st' : State Sim.World),
    runSuites_iter fuel Sim.defaultsRunner Sim.fileSuite (Sim.start Sim.quiet)
      = Some (res, st').
Proof.
  refine (proj2 (proj2 (proj2 (proj2 (proj2 (proj2 (proj2 (proj2 (proj2 (proj2
            (defaults_merge Sim.defaultsRunner Sim.fileSuite)))))))))) _
            (Sim.start Sim.quiet)).
  intros c id w. apply sim_polls_end.
Defined.

(** C5, as stated, fails: the suite sets its files, and the merge still
    adds the files of the defaults after them. *)
Lemma defaults_files_are_appended :
  Files (applyDefaults Sim.someDefaults Sim.fileSuite)
    = [{| Src := "test.js"; Dst := "/test.js" |};
       {| Src := "common.cfg"; Dst := "/cfg" |}] ∧
  Files (applyDefaults Sim.someDefaults Sim.fileSuite) ≠ Files Sim.fileSuite.
Proof. split; [reflexivity|]. intros Heq. discriminate Heq. Qed.



Lemma aggregate_verdict_witness :
  ∃ (fuel : nat) (code : Z),
    RunProject fuel (rounds 3)
      (Sim.runnerOf [Sim.plainSuite "A"; Sim.plainSuite "B"; Sim.plainSuite "C"])
      Sim.successWorld
    = Some (code, None).
Proof.
  apply (proj2 (proj2 (proj2 (aggregate_verdict
           (Sim.runnerOf [Sim.plainSuite "A"; Sim.plainSuite "B"; Sim.plainSuite "C"]))))).
  intros c id w. apply sim_polls_end.
Defined.

Lemma artifact_collection_witness :
  artifact_calls Sim.artifactRunner "a1" "A" Sim.successWorld
    = CallListArtifacts (WithCancel Background) "a1"
        :: downloads Sim.artifactRunner "a1" "artifacts/A"
             ["junit.xml"; "video.mp4"; "log.txt"].
Proof.
  exact (proj1 (proj2 (proj2 (proj2 (proj2 (artifact_collection Sim.artifactRunner)))))
           "a1" "A" Sim.successWorld eq_refl).
Defined.

(** On an environment key that both sides set, the loop over the
    defaults writes last: the merged suite has the value of the
    defaults. *)
Example env_conflict_takes_default :
  default ∅ (Env (applyDefaults Sim.someDefaults Sim.envSuite)) !! "CI" = Some "true" ∧
  default ∅ (Env Sim.envSuite) !! "CI" = Some "false".
Proof. split; vm_compute; reflexivity. Qed.

(** * Further properties of the engine *)

Section Further.

Context {W : Type} `{!ImageRunner W} `{!Runtime W} `{!Library}.

Implicit Types (st : State W) (r : ImgRunner) (suite : Suite) (s : @Sys W).

(** X1: [PollRun] talks to the backend through [GetStatus] alone, always
    on the context and for the job it was given: it never submits, stops,
    lists or downloads, and it leaves the reporters alone. *)
Theorem PollRun_only_polls (fuel : nat) (c : Context) (id ls : string) st
    (x : Runner * option error) (st' : State W) :
  PollRun fuel c id ls st = Some (x, st') →
  reports st' = reports st ∧
  ∃ new, calls st' = calls st ++ new ∧
         Forall (λ call, call = CallGetStatus c id) new ∧
         count_calls is_TriggerRun new = 0%nat ∧
         count_calls is_StopRun new = 0%nat.
Proof.
  intros Hp. apply PollRun_log in Hp as (n & Hc & Hr). split; [done|].
  exists (replicate n (CallGetStatus c id)). split; [done|].
  split; [|by rewrite !count_calls_polls].
  apply Forall_forall. intros call Hin. by apply elem_of_replicate in Hin as [? _].
Qed.

(** X2: in a world where a context that wakes the [select] reports an
    error, [PollRun] returns without an error only with a job in a
    terminal status, taken from the answer of a [GetStatus] call, so
    after at least one such call. *)
Theorem PollRun_success_is_terminal (fuel : nat) (c : Context) (id : string) :
  (∀ w, (select_wake c w).1 = WakeDone → ctx_Err c (select_wake c w).2 ≠ None) →
  ∀ (ls : string) st (run : Runner) (st' : State W),
    PollRun fuel c id ls st = Some ((run, None), st') →
    imagerunner_Done (Status run) = true ∧
    ∃ n : nat, calls st' = calls st ++ replicate (S n) (CallGetStatus c id).
Proof.
  intros Hdone. induction fuel as [|fuel IH]; intros ls st run st' Hp; [discriminate|].
  cbn [PollRun] in Hp. munfold. simpl in Hp.
  pose proof (Hdone (world st)) as Hd.
  destruct (select_wake c (world st)) as [[|] w1]; simpl in Hp, Hd.
  - inversion Hp; subst. simpl in *. by destruct (Hd eq_refl).
  - destruct (GetStatus c id w1) as [[run' [e|]] w2]; simpl in Hp; [discriminate|].
    destruct (imagerunner_Done (Status run')) eqn:Hterm.
    + inversion Hp; subst. split; [done|]. by exists 0%nat.
    + apply IH in Hp as (Hrun & n & Hc). split; [done|]. simpl in Hc.
      exists (S n). rewrite Hc, <- app_assoc. done.
Qed.



(** X4: when a file of the suite cannot be read, the turn of the worker
    makes no call on the Job Client, and the result it sends has the
    read error, an empty [runID], an empty status, and still
    [attempts = 1]. *)
Theorem unreadable_file_fails_without_submission (fuel : nat) r suite st
    (items : list FileData) (e : error) (st1 : State W) :
  ¬ cancelled_at_dequeue r st →
  mapFiles (Files (merged r suite)) (afterNow st) = Some ((items, Some e), st1) →
  ∃ (res : execResult) (st' : State W),
    runSuites_iter fuel r suite st = Some (res, st') ∧
    calls st' = calls st ∧
    runID res = "" ∧ status res = "" ∧ err res = Some e ∧ attempts res = 1.
Proof.
  intros Hc Hmf. rewrite (runSuites_iter_run _ _ _ _ Hc).
  rewrite (runSuite_files_error _ _ _ _ _ _ _ Hmf).
  eexists _, _. split; [reflexivity|]. simpl.
  destruct (mapFiles_total (Files (merged r suite)) (afterNow st)) as (x & st1' & Hmf' & Hcalls & _).
  rewrite Hmf in Hmf'. inversion Hmf'; subst. done.
Qed.

(** X5: an error of the submission that is not a deadline or
    cancellation error of a context that is done ends the attempt at
    once: the error is returned as it came, nothing is polled or
    stopped, and the job returned is the zero value, whatever the
    backend sent along with the error. *)
Theorem submission_error_is_final (fuel : nat) r suite st (runner : Runner) (e : error)
    (st2 : State W) :
  submitted r suite st runner (Some e) st2 →
  (Is (Some e) DeadlineExceeded = false ∧ Is (Some e) Canceled = false)
    ∨ ¬ expired r suite st2 →
  runSuite fuel r suite st = Some ((zeroRunner, Some e), st2) ∧
  ∃ files : list FileData,
    calls st2 = calls st ++ [CallTriggerRun (attemptCtx r suite) (specOf suite files)].
Proof.
  intros Hsub Hhard. split.
  - rewrite (runSuite_submitted fuel _ _ _ _ _ _ Hsub). cbv zeta.
    unfold expired in Hhard. destruct Hhard as [[Hd Hc]|Hne].
    + by rewrite Hd, Hc.
    + rewrite (bool_decide_eq_false_2 _ Hne), !andb_false_r. done.
  - destruct Hsub as (files & st1 & Hmf & _ & ->). exists files. simpl.
    destruct (mapFiles_total (Files suite) st) as (x & st1' & Hmf' & Hc1 & _).
    rewrite Hmf in Hmf'. inversion Hmf'; subst. by rewrite Hc1.
Qed.

(** X6: when the submission is answered with a cancellation error and
    the context of the attempt is done, the attempt ends with the
    cancellation error and the status Cancelled; the submission is its
    only call: nothing is polled and no stop request is made. *)
Theorem cancelled_submission_is_not_stopped (fuel : nat) r suite st (runner : Runner)
    (serr : option error) (st2 : State W) :
  submitted r suite st runner serr st2 →
  expired r suite st2 →
  Is serr DeadlineExceeded = false →
  Is serr Canceled = true →
  runSuite fuel r suite st
    = Some ((setStatus zeroRunner StateCancelled, Some ErrSuiteCancelled), st2) ∧
  ∃ files : list FileData,
    calls st2 = calls st ++ [CallTriggerRun (attemptCtx r suite) (specOf suite files)].
Proof.
  intros Hsub Hexp Hd Hc. split.
  - rewrite (runSuite_submitted fuel _ _ _ _ _ _ Hsub). cbv zeta.
    unfold expired in Hexp. by rewrite Hd, Hc, (bool_decide_eq_true_2 _ Hexp).
  - destruct Hsub as (files & st1 & Hmf & _ & ->). exists files. simpl.
    destruct (mapFiles_total (Files suite) st) as (x & st1' & Hmf' & Hc1 & _).
    rewrite Hmf in Hmf'. inversion Hmf'; subst. by rewrite Hc1.
Qed.

Lemma PollRun_no_error_polls (fuel : nat) (c : Context) (id : string) :
  ∀ (ls : string) st (run : Runner) (st' : State W),
    PollRun fuel c id ls st = Some ((run, None), st') →
    run = zeroRunner ∨
    (imagerunner_Done (Status run) = true ∧
     ∃ n : nat, calls st' = calls st ++ replicate (S n) (CallGetStatus c id)).
Proof.
  induction fuel as [|fuel IH]; intros ls st run st' Hp; [discriminate|].
  cbn [PollRun] in Hp. munfold. simpl in Hp.
  destruct (select_wake c (world st)) as [[|] w1]; simpl in Hp.
  - inversion Hp; subst. by left.
  - destruct (GetStatus c id w1) as [[run' [e|]] w2]; simpl in Hp; [discriminate|].
    destruct (imagerunner_Done (Status run')) eqn:Hterm.
    + inversion Hp; subst. right. split; [done|]. by exists 0%nat.
    + apply IH in Hp as [->|(Hrun & n & Hc)]; [by left|]. right. split; [done|].
      simpl in Hc. exists (S n). rewrite Hc, <- app_assoc. done.
Qed.

Lemma runSuite_no_error_inv (fuel : nat) r suite st (run : Runner)
    (st' : State W) :
  runSuite fuel r suite st = Some ((run, None), st') →
  Status run = StateSucceeded ∧
  imagerunner_Done StateSucceeded = true ∧
  ∃ (files : list FileData) (id : string) (n : nat),
    calls st' = calls st
                ++ CallTriggerRun (attemptCtx r suite) (specOf suite files)
                   :: replicate (S n) (CallGetStatus (attemptCtx r suite) id).
Proof.
  intros Hrun.
  destruct (mapFiles_total (Files suite) st) as ([files [e|]] & st1 & Hmf & Hc1 & _).
  { by rewrite (runSuite_files_error _ _ _ _ _ _ _ Hmf) in Hrun. }
  destruct (submitted_exists r suite st files st1 Hmf) as (runner & serr & st2 & Hsub).
  rewrite (runSuite_submitted _ _ _ _ _ _ _ Hsub) in Hrun. cbv zeta in Hrun.
  destruct Hsub as (files' & st1' & Hmf' & Htr & ->).
  rewrite Hmf in Hmf'. inversion Hmf'; subst files' st1'. clear Hmf'.
  destruct (Is serr DeadlineExceeded && _); [done|].
  destruct (Is serr Canceled && _); [done|].
  destruct serr as [e|]; [done|].
  destruct (PollRun fuel _ _ _ _) as [[[run' perr] st3]|] eqn:Hp; [|done].
  unfold afterPoll in Hrun. cbv zeta in Hrun.
  destruct (Is perr DeadlineExceeded && _); [done|].
  destruct (Is perr Canceled && _); [done|].
  destruct perr as [e|]; [done|].
  destruct (bool_decide (Status run' ≠ StateSucceeded)) eqn:Hs; [done|].
  inversion Hrun; subst run' st3. clear Hrun.
  apply bool_decide_eq_false in Hs. apply dec_stable in Hs.
  apply PollRun_no_error_polls in Hp as [->|(Hterm & n & Hc)]; [done|].
  split; [done|]. split; [by rewrite <- Hs|].
  exists files, (ID runner), n. rewrite Hc. simpl. rewrite Hc1, <- app_assoc. done.
Qed.

(** X7: an attempt returns a nil error only for a job whose status is
    Succeeded, a status [imagerunner.Done] accepts, after one submission
    and at least one poll, and without a stop request. *)
Theorem attempt_passes_only_on_succeeded (fuel : nat) r suite st (run : Runner)
    (st' : State W) :
  runSuite fuel r suite st = Some ((run, None), st') →
  Status run = StateSucceeded ∧
  imagerunner_Done StateSucceeded = true ∧
  ∃ (files : list FileData) (id : string) (n : nat),
    calls st' = calls st
                ++ CallTriggerRun (attemptCtx r suite) (specOf suite files)
                   :: replicate (S n) (CallGetStatus (attemptCtx r suite) id).
Proof. apply runSuite_no_error_inv. Qed.

(** X8: a stop request is made only by an attempt that ends with the
    timeout error or the cancellation error: it is then the last call
    of the attempt and the only stop request in it, it goes out on
    [context.Background()], and the status returned is Cancelled.  A job
    that ended by itself, or that could not be polled, is never
    stopped. *)
Theorem stop_only_after_expiry (fuel : nat) r suite st (run : Runner)
    (e : option error) (st' : State W) (new : list Call) :
  runSuite fuel r suite st = Some ((run, e), st') →
  calls st' = calls st ++ new →
  count_calls is_StopRun new ≠ 0%nat →
  Status run = StateCancelled ∧
  (e = Some (SuiteTimeoutError (attemptTimeout suite)) ∨ e = Some ErrSuiteCancelled) ∧
  ∃ (before : list Call) (id : string),
    new = before ++ [CallStopRun Background id] ∧
    count_calls is_StopRun before = 0%nat.
Proof.
  intros Hrun Hnew Hstop.
  destruct (mapFiles_total (Files suite) st) as ([files [e1|]] & st1 & Hmf & Hc1 & _).
  { rewrite (runSuite_files_error _ _ _ _ _ _ _ Hmf) in Hrun. inversion Hrun; subst.
    rewrite Hc1 in Hnew. rewrite <- (app_nil_r (calls st)) in Hnew at 1.
    apply app_inv_head in Hnew. by subst new. }
  destruct (submitted_exists r suite st files st1 Hmf) as (runner & serr & st2 & Hsub).
  rewrite (runSuite_submitted _ _ _ _ _ _ _ Hsub) in Hrun. cbv zeta in Hrun.
  destruct Hsub as (files' & st1' & Hmf' & Htr & ->).
  rewrite Hmf in Hmf'. inversion Hmf'; subst files' st1'. clear Hmf'.
  set (c := attemptCtx r suite) in *. set (spec := specOf suite files) in *.
  assert (Hearly : ∀ l : list Call,
             l = calls st ++ new → l = calls st1 ++ [CallTriggerRun c spec] →
             count_calls is_StopRun new = 0%nat).
  { intros l H0' H0. rewrite H0, Hc1 in H0'. apply app_inv_head in H0'. by subst new. }
  destruct (Is serr DeadlineExceeded && _).
  { inversion Hrun; subst. exfalso. apply Hstop. exact (Hearly _ Hnew eq_refl). }
  destruct (Is serr Canceled && _).
  { inversion Hrun; subst. exfalso. apply Hstop. exact (Hearly _ Hnew eq_refl). }
  destruct serr as [e1|].
  { inversion Hrun; subst. exfalso. apply Hstop. exact (Hearly _ Hnew eq_refl). }
  destruct (PollRun fuel _ _ _ _) as [[[run' perr] st3]|] eqn:Hp; [|done].
  apply PollRun_log in Hp as (n & Hc3 & _). simpl in Hc3.
  assert (Hpolls : count_calls is_StopRun
                     (CallTriggerRun c spec :: replicate n (CallGetStatus c (ID runner)))
                   = 0%nat).
  { by rewrite count_calls_cons, count_calls_polls. }
  assert (Hlate : ∀ l : list Call,
             l = calls st ++ new → l = calls st3 →
             count_calls is_StopRun new = 0%nat).
  { intros l H0' H0. rewrite H0, Hc3, Hc1, <- !app_assoc in H0'.
    apply app_inv_head in H0'. by subst new. }
  assert (Hstopped : calls (stopped runner st3) = calls st ++ new →
             ∃ (before : list Call) (id : string),
               new = before ++ [CallStopRun Background id] ∧
               count_calls is_StopRun before = 0%nat).
  { intros H0. unfold stopped in H0. simpl in H0.
    rewrite Hc3, Hc1, <- !app_assoc in H0. apply app_inv_head in H0. subst new.
    exists (CallTriggerRun c spec :: replicate n (CallGetStatus c (ID runner))),
           (ID runner). split; done. }
  unfold afterPoll in Hrun. cbv zeta in Hrun.
  destruct (Is perr DeadlineExceeded && _).
  { inversion Hrun; subst. split; [done|]. split; [by left|]. by apply Hstopped. }
  destruct (Is perr Canceled && _).
  { inversion Hrun; subst. split; [done|]. split; [by right|]. by apply Hstopped. }
  destruct perr as [e1|]; [|destruct (bool_decide _)];
    inversion Hrun; subst; exfalso; apply Hstop; exact (Hlate _ Hnew eq_refl).
Qed.

(** X9: the contexts of an attempt.  The submission and every poll go
    out on the context of the attempt, derived from the shared context
    with a timeout that is positive: the timeout of the suite, or 24
    hours when the suite has none or a negative one.  A stop request
    goes out on [context.Background()]. *)
Theorem attempt_contexts (fuel : nat) r suite st (x : Runner * option error)
    (st' : State W) (new : list Call) :
  runSuite fuel r suite st = Some (x, st') →
  calls st' = calls st ++ new →
  0 < attemptTimeout suite ∧
  (0 < Timeout suite → attemptTimeout suite = Timeout suite) ∧
  (Timeout suite ≤ 0 → attemptTimeout suite = 24 * Hour) ∧
  Forall (λ call, match call with
                  | CallTriggerRun c _ | CallGetStatus c _ =>
                      c = WithTimeout (ctx r) (attemptTimeout suite)
                  | CallStopRun c _ => c = Background
                  | _ => False
                  end) new.
Proof.
  intros Hrun Hnew.
  assert (Ht : 0 < attemptTimeout suite ∧
               (0 < Timeout suite → attemptTimeout suite = Timeout suite) ∧
               (Timeout suite ≤ 0 → attemptTimeout suite = 24 * Hour)).
  { unfold attemptTimeout, Hour. destruct (Timeout suite <=? 0) eqn:Hle.
    - apply Z.leb_le in Hle. lia.
    - apply Z.leb_gt in Hle. lia. }
  destruct Ht as (H1 & H2 & H3). do 3 (split; [done|]).
  apply runSuite_log in Hrun as (_ & new' & Hnew' & Hshape).
  rewrite Hnew in Hnew'. apply app_inv_head in Hnew'. subst new'.
  destruct Hshape as [->|(files & id & n & tail & -> & Htail)]; [constructor|].
  constructor; [done|]. apply Forall_app. split.
  - apply Forall_forall. intros call Hin. by apply elem_of_replicate in Hin as [-> _].
  - destruct Htail as [->| ->]; [constructor|]. by constructor.
Qed.

Lemma runSuites_iter_no_error (fuel : nat) r suite st (res : execResult) (st' : State W) :
  runSuites_iter fuel r suite st = Some (res, st') →
  err res = None →
  status res = StateSucceeded ∧ attempts res = 1 ∧ ¬ cancelled_at_dequeue r st.
Proof.
  intros Hit Hok. destruct (cancelled_at_dequeue_dec r st) as [Hc|Hc].
  - rewrite (runSuites_iter_skip _ _ _ _ Hc) in Hit. inversion Hit; subst. done.
  - rewrite (runSuites_iter_run _ _ _ _ Hc) in Hit.
    destruct (runSuite fuel _ _ _) as [[[run e] st2]|] eqn:Hrun; [|done].
    inversion Hit; subst. simpl in *. subst e.
    by apply runSuite_no_error_inv in Hrun as (Hs & _).
Qed.

(** X10: under every schedule, when [RunProject] returns the exit status
    0 the aggregator has received one result per suite, and every one
    of them has the status Succeeded, [attempts = 1] and no error: no
    suite was skipped, failed, timed out or cancelled. *)
Theorem exit_zero_means_all_succeeded (fuel : nat) (sched : list goroutine) r (w : W) :
  RunProject fuel sched r w = Some (0, None) →
  ∃ s, RunProject_sys fuel sched r w = Some s ∧
       length (received s) = length (Suites (RunnerProject r)) ∧
       Forall (λ res, status res = StateSucceeded ∧ attempts res = 1 ∧ err res = None)
              (received s).
Proof.
  unfold RunProject. intros Hrun.
  destruct (RunProject_sys fuel sched r w) as [s|] eqn:Hsys; [|done]. simpl in Hrun.
  destruct (returned s) as [b|] eqn:Hret; [|done]. simpl in Hrun.
  destruct b; [|done]. exists s. split; [done|].
  rewrite RunProject_sys_start in Hsys.
  apply run_inv in Hsys; [|apply (idle_inv fuel (withRootCtx r))].
  destruct (inv_returned_all fuel (withRootCtx r) s true Hsys Hret) as [Hall Hb].
  split; [symmetry; by eapply Forall2_length|].
  symmetry in Hb. rewrite forallb_forall in Hb.
  apply Forall_forall. intros res Hin.
  assert (Hok : err res = None).
  { apply list_elem_of_In, Hb in Hin. unfold noError in Hin.
    by apply bool_decide_eq_true in Hin. }
  apply list_elem_of_lookup in Hin as [i Hi].
  destruct (Forall2_lookup_r _ _ _ _ _ Hall Hi) as (suite & _ & (st0 & st0' & Hit)).
  destruct (runSuites_iter_no_error _ _ _ _ _ _ Hit Hok) as (? & ? & _). done.
Qed.

Lemma mergeEnv_is_union_aux (se de : option (gmap string string)) :
  mergeEnv se de = Some (default ∅ de ∪ default ∅ se) ∧
  ∀ (k v : string),
    default ∅ de !! k = Some v →
    (default ∅ de ∪ default ∅ se) !! k = Some v.
Proof.
  split.
  - destruct (mergeEnv_lookup se de "") as (env & Henv & _). rewrite Henv. f_equal.
    apply map_eq. intros k.
    destruct (mergeEnv_lookup se de k) as (env' & Henv' & Hk).
    rewrite Henv in Henv'. inversion Henv'; subst env'. rewrite Hk, lookup_union.
    destruct (default ∅ de !! k), (default ∅ se !! k); done.
  - intros k v Hk. by apply lookup_union_Some_l.
Qed.

(** X11: the environment of a merged suite is never the nil map: it is
    the map of the defaults extended by the keys only the suite sets.
    On a key that both set, the value of the defaults is the one that
    stays. *)
Theorem mergeEnv_is_union (se de : option (gmap string string)) :
  mergeEnv se de = Some (default ∅ de ∪ default ∅ se) ∧
  ∀ (k v : string),
    default ∅ de !! k = Some v →
    (default ∅ de ∪ default ∅ se) !! k = Some v.
Proof. apply mergeEnv_is_union_aux. Qed.

(** X12: [mapEnv] gives one item per key of the map: an item is in the
    list exactly when the map holds its value under its name, no name
    comes twice, and the nil map gives no item. *)
Theorem mapEnv_items (env : option (gmap string string)) :
  (∀ (k v : string),
     {| EnvName := k; EnvValue := v |} ∈ mapEnv env ↔ default ∅ env !! k = Some v) ∧
  NoDup (map EnvName (mapEnv env)) ∧
  length (mapEnv env) = size (default ∅ env) ∧
  mapEnv None = [].
Proof.
  unfold mapEnv. split; [|split; [|split]].
  - intros k v. rewrite list_elem_of_fmap. split.
    + intros ([k' v'] & Heq & Hin). inversion Heq; subst.
      by apply elem_of_map_to_list in Hin.
    + intros Hk. exists (k, v). split; [done|]. by apply elem_of_map_to_list.
  - rewrite <- list_fmap_compose.
    assert (Hfst : (EnvName ∘ (λ kv : string * string,
                      {| EnvName := kv.1; EnvValue := kv.2 |})) = fst) by done.
    change (NoDup ((EnvName ∘ (λ kv : string * string,
                      {| EnvName := kv.1; EnvValue := kv.2 |})) <$>
                   map_to_list (default ∅ env))).
    rewrite Hfst. apply NoDup_fst_map_to_list.
  - by rewrite length_fmap, length_map_to_list.
  - simpl. by rewrite map_to_list_empty.
Qed.

(** X13: what the backend is told of the environment.  The submission
    for a merged suite carries an item for a name and a value exactly
    when the defaults set the name to that value, or do not set it and
    the suite sets it to that value. *)
Theorem submitted_env (d s : Suite) (files : list FileData) (k v : string) :
  {| EnvName := k; EnvValue := v |} ∈ SpecEnv (specOf (applyDefaults d s) files) ↔
  default ∅ (Env d) !! k = Some v ∨
  (default ∅ (Env d) !! k = None ∧ default ∅ (Env s) !! k = Some v).
Proof.
  unfold specOf, applyDefaults. cbn [SpecEnv Env].
  destruct (mergeEnv_lookup (Env s) (Env d) k) as (env & Henv & Hk).
  rewrite Henv. unfold mapEnv. rewrite list_elem_of_fmap. simpl. split.
  - intros ([k' v'] & Heq & Hin). inversion Heq; subst k' v'.
    apply elem_of_map_to_list in Hin. rewrite Hk in Hin.
    destruct (default ∅ (Env d) !! k); [left|right]; done.
  - intros Hor. exists (k, v). split; [done|]. apply elem_of_map_to_list. rewrite Hk.
    destruct Hor as [->|[-> ?]]; done.
Qed.

(** X14: [orDefault] keeps the first of its arguments that is not the
    zero value: it is associative, its result is zero only when both
    arguments are, and a first argument that is not zero is returned
    as it is. *)
Theorem orDefault_first_nonzero {T : Type} `{IsZero T} (a b c : T) :
  orDefault a (orDefault b c) = orDefault (orDefault a b) c ∧
  isZero (orDefault a b) = isZero a && isZero b ∧
  (isZero a = false → orDefault a b = a).
Proof.
  unfold orDefault. destruct (isZero a) eqn:Ha; simpl.
  - destruct (isZero b) eqn:Hb; simpl; rewrite ?Hb; done.
  - rewrite Ha. done.
Qed.

(** X15: with defaults that set nothing, the merge gives the suite
    back as it was, but for a nil environment, which becomes an empty
    map. *)
Theorem zero_defaults_change_nothing (d s : Suite) :
  Name d = "" → Image d = "" → ImagePullAuth d = {| User := ""; Token := "" |} →
  EntryPoint d = "" → Timeout d = 0 → Files d = [] → Artifacts d = [] →
  default ∅ (Env d) = ∅ →
  applyDefaults d s
    = {| Name := Name s; Image := Image s; ImagePullAuth := ImagePullAuth s;
         EntryPoint := EntryPoint s; Timeout := Timeout s; Files := Files s;
         Artifacts := Artifacts s; Env := Some (default ∅ (Env s)) |}.
Proof.
  intros Hn Hi Ha He Ht Hf Hart Henv. unfold applyDefaults.
  rewrite Hn, Hi, Ha, He, Ht, Hf, Hart, !app_nil_r.
  destruct (mergeEnv_is_union_aux (Env s) (Env d)) as [Hm _].
  rewrite Hm, Henv, (left_id_L ∅ (∪)).
  f_equal.
  - unfold orDefault, isZero, string_IsZero. case_bool_decide; congruence.
  - unfold orDefault, isZero, Auth_IsZero. destruct (ImagePullAuth s) as [u t]. simpl.
    repeat case_bool_decide; simpl; congruence.
  - unfold orDefault, isZero, string_IsZero. case_bool_decide; congruence.
  - unfold orDefault, isZero, Duration_IsZero. case_bool_decide; congruence.
Qed.

(** X16: the reporters see every result the aggregator takes: for each
    result, in the order of arrival, [Add] is called once on every
    reporter, in the order of registration, and when the last result
    has been handled [Render] is called once on every reporter. *)
Theorem reporters_see_every_result r (results : list execResult) (expected : Z) st :
  (Z.to_nat expected ≤ length results)%nat →
  ∃ (x : bool * list execResult) (st' : State W),
    collectResults r results expected st = Some (x, st') ∧
    reports st'
      = reports st
        ++ concat (map (λ res, map (λ rep, ReporterAdd rep (testResultOf res))
                                   (Reporters r))
                       (take (Z.to_nat expected) results))
        ++ map ReporterRender (Reporters r).
Proof.
  intros Hn. destruct (collectResults_spec r results expected st Hn) as (st' & Hc & Hr).
  eexists _, st'. split; [exact Hc|exact Hr].
Qed.

Lemma downloads_counts r (runnerID dir : string) (files : list string) :
  count_calls is_TriggerRun (downloads r runnerID dir files) = 0%nat ∧
  count_calls is_StopRun (downloads r runnerID dir files) = 0%nat.
Proof.
  unfold downloads.
  induction (List.filter _ files) as [|f l [IH1 IH2]]; [done|].
  simpl. by rewrite !count_calls_cons, IH1, IH2.
Qed.

Lemma collect_one_calls r (res : execResult) (passed b : bool) st (st' : State W) :
  collect_one r res passed st = Some (b, st') →
  ∃ new, calls st' = calls st ++ new ∧
         (new = [] ∨
          ∃ (dir : string) (files : list string),
            new = CallListArtifacts (ctx r) (runID res)
                    :: map (λ f, CallDownloadArtifact (ctx r) (runID res) f dir) files) ∧
         count_calls is_TriggerRun new = 0%nat ∧
         count_calls is_StopRun new = 0%nat.
Proof.
  intros Hone.
  destruct (collect_one_spec r res passed st) as (st1 & Hone' & _ & new & Hc & Hno & Hyes).
  rewrite Hone in Hone'. inversion Hone'; subst b st1. exists new. split; [done|].
  destruct (collects r res passed).
  - destruct (Hyes eq_refl) as (st2 & Hd & Hc2).
    destruct (DownloadArtifacts_calls r (runID res) (name res) st) as (st2' & Hd' & _ & Hc2').
    rewrite Hd in Hd'. inversion Hd'; subst st2'. rewrite Hc2 in Hc2'.
    apply app_inv_head in Hc2'. subst new. unfold artifact_calls. cbv zeta.
    destruct ((GetSuiteArtifactFolder _ _ _).1.2); [by split; [left|]|].
    split; [right; eexists _, _; reflexivity|].
    destruct (downloads_counts r (runID res) (GetSuiteArtifactFolder (name res)
                (ProjectArtifacts (RunnerProject r)) (world st)).1.1
                (ListArtifacts (ctx r) (runID res) (GetSuiteArtifactFolder (name res)
                (ProjectArtifacts (RunnerProject r)) (world st)).2).1.1) as [H1 H2].
    by rewrite !count_calls_cons, H1, H2.
  - rewrite (Hno eq_refl). by split; [left|].
Qed.

(** X17: the aggregator reaches the backend only to collect artifacts.
    While it handles a result it calls nothing, or it lists the
    artifacts of the job of that result once and then only downloads,
    all on the shared context of the runner; it never submits and never
    stops a job. *)
Theorem aggregator_calls r (res : execResult) (passed b : bool) st (st' : State W) :
  collect_one r res passed st = Some (b, st') →
  ∃ new, calls st' = calls st ++ new ∧
         (new = [] ∨
          ∃ (dir : string) (files : list string),
            new = CallListArtifacts (ctx r) (runID res)
                    :: map (λ f, CallDownloadArtifact (ctx r) (runID res) f dir) files) ∧
         count_calls is_TriggerRun new = 0%nat ∧
         count_calls is_StopRun new = 0%nat.
Proof. apply collect_one_calls. Qed.

Lemma attempt_calls_stop_le r suite (new : list Call) :
  attempt_calls r suite new →
  (count_calls is_StopRun new ≤ count_calls is_TriggerRun new)%nat.
Proof.
  intros [->|(files & id & n & tail & -> & Htail)]; [done|].
  rewrite !count_calls_cons, !count_calls_app, !count_calls_polls by done.
  destruct Htail as [->| ->]; compute; lia.
Qed.

Lemma step_counts (fuel : nat) r (expected : Z) (g : goroutine) s s' :
  step fuel r expected g s = Some s' →
  (count_calls is_TriggerRun (calls (state s)) ≤ length (taken s))%nat ∧
  (count_calls is_StopRun (calls (state s))
     ≤ count_calls is_TriggerRun (calls (state s)))%nat →
  (count_calls is_TriggerRun (calls (state s')) ≤ length (taken s'))%nat ∧
  (count_calls is_StopRun (calls (state s'))
     ≤ count_calls is_TriggerRun (calls (state s')))%nat.
Proof.
  intros Hstep [H1 H2]. destruct g as [|k|]; simpl in Hstep.
  - inversion Hstep; subst. unfold step_submit.
    destruct (pending s); [done|]. by destruct (can_send _).
  - unfold step_worker in Hstep.
    destruct (workers (pool s) !! k) as [[|res]|]; [| |by inversion Hstep; subst].
    + destruct (buf (suitesCh (pool s))) as [|suite rest]; [by inversion Hstep; subst|].
      destruct (runSuites_iter fuel r suite (state s)) as [[res st']|] eqn:Hit; [|done].
      simpl in Hstep. inversion Hstep; subst s'. simpl.
      apply runSuites_iter_log in Hit as (_ & _ & new & Hc & Hshape & _).
      pose proof (attempt_calls_stop_le _ _ _ Hshape) as Hle.
      apply attempt_calls_count in Hshape as [Ht _].
      rewrite Hc, !count_calls_app, length_app. simpl. lia.
    + destruct (can_send _); by inversion Hstep; subst.
  - unfold step_main in Hstep.
    destruct (returned s); [by inversion Hstep; subst|].
    destruct (col_i s <? expected).
    + destruct (buf (resultsCh (pool s))) as [|res rest]; [by inversion Hstep; subst|].
      destruct (collect_one r res (col_passed s) (state s)) as [[b st']|] eqn:Hone; [|done].
      simpl in Hstep. inversion Hstep; subst s'. simpl.
      apply collect_one_calls in Hone as (new & Hc & _ & Ht & Hs).
      rewrite Hc, !count_calls_app, Ht, Hs. lia.
    + rewrite renderAll_spec in Hstep. simpl in Hstep. by inversion Hstep; subst.
Qed.

(** X18: under every schedule and at every point of a run of
    [RunProject], the jobs submitted so far are no more than the suites
    the worker has taken, which are no more than the suites of the
    project, and the stop requests made so far are no more than the
    jobs submitted. *)
Theorem submissions_bounded (fuel : nat) (sched : list goroutine) r (w : W) s :
  RunProject_sys fuel sched r w = Some s →
  (count_calls is_TriggerRun (calls (state s)) ≤ length (taken s))%nat ∧
  (length (taken s) ≤ length (Suites (RunnerProject r)))%nat ∧
  (count_calls is_StopRun (calls (state s))
     ≤ count_calls is_TriggerRun (calls (state s)))%nat.
Proof.
  rewrite RunProject_sys_start. intros Hrun.
  pose proof (run_inv _ _ _ _ _ _ Hrun (idle_inv fuel (withRootCtx r) _)) as Hinv.
  assert (Hcounts : ∀ (sc : list goroutine) (s0 s1 : @Sys W),
            run fuel (withRootCtx r) (Z.of_nat (length (Suites (RunnerProject r)))) sc s0
              = Some s1 →
            (count_calls is_TriggerRun (calls (state s0)) ≤ length (taken s0))%nat ∧
            (count_calls is_StopRun (calls (state s0))
               ≤ count_calls is_TriggerRun (calls (state s0)))%nat →
            (count_calls is_TriggerRun (calls (state s1)) ≤ length (taken s1))%nat ∧
            (count_calls is_StopRun (calls (state s1))
               ≤ count_calls is_TriggerRun (calls (state s1)))%nat).
  { induction sc as [|g sc IH]; intros s0 s1 Hr H0; simpl in Hr.
    - by inversion Hr; subst.
    - destruct (step fuel _ _ g s0) as [s2|] eqn:Hstep; [|done]. simpl in Hr.
      eapply IH; [exact Hr|]. by eapply step_counts. }
  destruct (Hcounts _ _ _ Hrun) as [H1 H2]; [by compute; lia|].
  split; [done|]. split; [|done].
  destruct Hinv as [_ Hs _ _ _ _ _ _]. simpl in Hs.
  apply (f_equal length) in Hs. rewrite !length_app in Hs. lia.
Qed.

(** X19: a project without suites.  Under every schedule in which
    [RunProject] itself gets to move, it returns the exit status 0 and a
    nil error, having called the Job Client not once and rendered every
    reporter once; while it has not moved it has not returned. *)
Theorem empty_project_passes (fuel : nat) (sched : list goroutine) r (w : W) :
  Suites (RunnerProject r) = [] →
  (GoMain ∈ sched →
   RunProject fuel sched r w = Some (0, None) ∧
   ∃ s, RunProject_sys fuel sched r w = Some s ∧
        calls (state s) = [] ∧
        reports (state s) = map ReporterRender (Reporters r)) ∧
  (GoMain ∉ sched → RunProject fuel sched r w = None).
Proof.
  intros Hempty. unfold RunProject. rewrite RunProject_sys_start, Hempty. simpl length.
  set (r' := withRootCtx r).
  set (s0 := idle [] 0 (Z.of_nat 0) true (mkState w [] []) [] [] : @Sys W).
  set (s1 := mkSys [] (mkPool (mkChan 1 []) (mkChan 1 []) [Receiving]) 0 (Z.of_nat 0) true
               (Some true) (mkState w [] (map ReporterRender (Reporters r))) [] []
             : @Sys W).
  assert (Hafter : ∀ sc, run fuel r' (Z.of_nat 0) sc s1 = Some s1).
  { induction sc as [|[|[|k]|] sc IH]; simpl; [done|exact IH|exact IH| |exact IH].
    unfold step_worker. simpl. by destruct k. }
  assert (Hmain : step_main r' (Z.of_nat 0) s0 = Some s1).
  { unfold step_main. simpl. by rewrite renderAll_spec. }
  assert (Hbefore : ∀ sc,
            (GoMain ∈ sc → run fuel r' (Z.of_nat 0) sc s0 = Some s1) ∧
            (GoMain ∉ sc → run fuel r' (Z.of_nat 0) sc s0 = Some s0)).
  { induction sc as [|g sc [IH1 IH2]]; [split; [by intros ?%elem_of_nil|done]|].
    destruct g as [|k|].
    - simpl. split; intros Hin.
      + apply IH1. by apply elem_of_cons in Hin as [|].
      + apply IH2. intros ?. apply Hin. by right.
    - assert (Hw : step_worker fuel r' k s0 = Some s0).
      { unfold step_worker. simpl. by destruct k as [|[|k]]. }
      cbn [run step]. rewrite Hw. cbn [mbind option_bind]. split; intros Hin.
      + apply IH1. by apply elem_of_cons in Hin as [|].
      + apply IH2. intros ?. apply Hin. by right.
    - cbn [run step]. rewrite Hmain. cbn [mbind option_bind]. split; intros Hin.
      + apply Hafter.
      + exfalso. apply Hin. by left. }
  destruct (Hbefore sched) as [Hyes Hno]. split; intros Hin.
  - rewrite (Hyes Hin). simpl. split; [done|]. by exists s1.
  - by rewrite (Hno Hin).
Qed.

End Further.

Lemma PollRun_only_polls_witness :
  ∃ (x : Runner * option error) (st' : State Sim.World) (new : list Call),
    PollRun 3 (WithTimeout (WithCancel Background) Hour) "d1" "Pending"
      (Sim.start Sim.retryWorld) = Some (x, st') ∧
    calls st' = calls (Sim.start Sim.retryWorld) ++ new ∧
    count_calls is_StopRun new = 0%nat.
Proof.
  edestruct (PollRun_only_polls (W := Sim.World) 3
               (WithTimeout (WithCancel Background) Hour) "d1" "Pending"
               (Sim.start Sim.retryWorld)) as (_ & new & Hc & _ & _ & Hstop).
  { vm_compute. reflexivity. }
  eexists _, _, new. split; [vm_compute; reflexivity|]. split; [exact Hc|exact Hstop].
Defined.

Lemma sim_done_reports (t : Duration) (w : Sim.World) :
  (select_wake (WithTimeout (WithCancel Background) t) w).1 = WakeDone →
  ctx_Err (WithTimeout (WithCancel Background) t)
          (select_wake (WithTimeout (WithCancel Background) t) w).2 ≠ None.
Proof.
  simpl. unfold Sim.sim_select.
  destruct (Sim.wakes w) as [|[e|] ws]; simpl; done.
Qed.

Lemma PollRun_success_is_terminal_witness :
  ∃ (run : Runner) (st' : State Sim.World),
    PollRun 3 (WithTimeout (WithCancel Background) Hour) "d1" "Pending"
      (Sim.start Sim.retryWorld) = Some ((run, None), st') ∧
    imagerunner_Done (Status run) = true.
Proof.
  eexists _, _. split; [vm_compute; reflexivity|].
  refine (proj1 (PollRun_success_is_terminal 3 (WithTimeout (WithCancel Background) Hour)
                   "d1" (sim_done_reports Hour) "Pending" (Sim.start Sim.retryWorld)
                   _ _ _)).
  vm_compute. reflexivity.
Defined.


(** ** The interrupt handler *)

Section InterruptFacts.

Context {W : Type} `{!Runtime W} `{!Signals W}.

(** X20: the handler ends the process only with the exit status 1, and
    only on a signal that finds the shared context already cancelled:
    whatever signals arrive, it never exits while the context is still
    live. *)
Theorem force_exit_only_after_cancel (r : ImgRunner) (sigs : list (option Signal)) :
  ∀ (out : list string) (w : W) (code : Z) (out' : list string) (w' : W),
    interruptLoop r sigs out w = (HandlerExit code, out', w') →
    code = 1 ∧ ctx_Err (ctx r) w' ≠ None.
Proof.
  induction sigs as [|[sig|] sigs IH]; intros out w code out' w' Hloop; simpl in Hloop;
    [discriminate| |discriminate].
  destruct (ctx_Err (ctx r) w) as [e|] eqn:Herr.
  - inversion Hloop; subst. split; [done|]. by rewrite Herr.
  - by apply IH in Hloop.
Qed.

(** X21: in a world where [r.cancel()] makes the shared context report
    an error, and starting with the context live: the first interrupt
    cancels the context, prints the notice and leaves the handler
    waiting; a second interrupt then ends the process with status 1; a
    closed channel makes the handler return instead.  Whatever arrives,
    the context is cancelled and the notice printed at most once. *)
Theorem interrupts_cancel_then_exit (r : ImgRunner) (out : list string) (w : W) :
  (∀ w0, ctx_Err (ctx r) (ctx_cancel (ctx r) w0) ≠ None) →
  ctx_Err (ctx r) w = None →
  interruptLoop r [Some Interrupt] out w
    = (HandlerWaiting, out ++ [stopNotice], ctx_cancel (ctx r) w) ∧
  (∀ rest, interruptLoop r (Some Interrupt :: Some Interrupt :: rest) out w
           = (HandlerExit 1, out ++ [stopNotice], ctx_cancel (ctx r) w)) ∧
  (∀ rest, interruptLoop r (Some Interrupt :: None :: rest) out w
           = (HandlerReturned, out ++ [stopNotice], ctx_cancel (ctx r) w)) ∧
  (∀ sigs, (interruptLoop r sigs out w).1.2 = out ∧ (interruptLoop r sigs out w).2 = w
           ∨ (interruptLoop r sigs out w).1.2 = out ++ [stopNotice] ∧
             (interruptLoop r sigs out w).2 = ctx_cancel (ctx r) w).
Proof.
  intros Hcancel Hlive.
  assert (Hsecond : ∀ rest o,
            interruptLoop r (Some Interrupt :: rest) o (ctx_cancel (ctx r) w)
              = (HandlerExit 1, o, ctx_cancel (ctx r) w)).
  { intros rest o. simpl.
    destruct (ctx_Err (ctx r) (ctx_cancel (ctx r) w)) eqn:He; [done|].
    by destruct (Hcancel w). }
  split; [by simpl; rewrite Hlive|]. split; [|split].
  - intros rest. cbn [interruptLoop]. rewrite Hlive. apply Hsecond.
  - intros rest. simpl. by rewrite Hlive.
  - intros [|[[]|] sigs]; [by left| |by left].
    cbn [interruptLoop]. rewrite Hlive. right.
    destruct sigs as [|[[]|] sigs]; [done| |done].
    by rewrite Hsecond.
Qed.

End InterruptFacts.

Lemma sim_cancel_reports (w : Sim.World) :
  ctx_Err (ctx (Sim.runnerOf [])) (ctx_cancel (ctx (Sim.runnerOf [])) w) ≠ None.
Proof. simpl. by destruct (Sim.rootErr w). Qed.

Lemma force_exit_only_after_cancel_witness :
  ∃ (out' : list string) (w' : Sim.World),
    interruptLoop (Sim.runnerOf []) [Some Interrupt; Some Interrupt] [] Sim.quiet
      = (HandlerExit 1, out', w') ∧
    ctx_Err (ctx (Sim.runnerOf [])) w' ≠ None.
Proof.
  eexists _, _. split; [vm_compute; reflexivity|].
  refine (proj2 (force_exit_only_after_cancel (Sim.runnerOf [])
                   [Some Interrupt; Some Interrupt] [] Sim.quiet 1 _ _ _)).
  vm_compute. reflexivity.
Defined.

Lemma interrupts_cancel_then_exit_witness :
  interruptLoop (Sim.runnerOf []) [Some Interrupt; Some Interrupt; Some Interrupt] []
    Sim.quiet
  = (HandlerExit 1, [] ++ [stopNotice], ctx_cancel (ctx (Sim.runnerOf [])) Sim.quiet).
Proof.
  apply (proj1 (proj2 (interrupts_cancel_then_exit (Sim.runnerOf []) [] Sim.quiet
                         sim_cancel_reports eq_refl))).
Defined.

Lemma unreadable_file_fails_without_submission_witness :
  ∃ (res : execResult) (st' : State Sim.World),
    runSuites_iter 1 (Sim.runnerOf []) Sim.brokenSuite (Sim.start Sim.quiet)
      = Some (res, st') ∧
    calls st' = calls (Sim.start Sim.quiet) ∧
    runID res = "" ∧ status res = "" ∧
    err res = Some (errorString "open missing: no such file or directory") ∧
    attempts res = 1.
Proof.
  eapply (unreadable_file_fails_without_submission (W := Sim.World) 1 (Sim.runnerOf [])
            Sim.brokenSuite (Sim.start Sim.quiet)).
  - vm_compute. intros Hc. apply Hc. reflexivity.
  - vm_compute. reflexivity.
Defined.

Lemma submission_error_is_final_witness :
  ∃ st2 : State Sim.World,
    runSuite 1 (Sim.runnerOf []) (Sim.plainSuite "X") (Sim.start Sim.rejectWorld)
      = Some ((zeroRunner, Some (errorString "401 Unauthorized")), st2).
Proof.
  eexists.
  refine (proj1 (submission_error_is_final (W := Sim.World) 1 (Sim.runnerOf [])
                   (Sim.plainSuite "X") (Sim.start Sim.rejectWorld)
                   (Sim.job "x1" "Pending") (errorString "401 Unauthorized") _ _ _)).
  - eexists _, _. split; [vm_compute; reflexivity|].
    split; [vm_compute; reflexivity|reflexivity].
  - left. split; reflexivity.
Defined.

Lemma cancelled_submission_is_not_stopped_witness :
  ∃ st2 : State Sim.World,
    runSuite 1 (Sim.runnerOf []) (Sim.plainSuite "F") (Sim.start Sim.cancelSubmitWorld)
      = Some ((setStatus zeroRunner StateCancelled, Some ErrSuiteCancelled), st2).
Proof.
  eexists.
  refine (proj1 (cancelled_submission_is_not_stopped (W := Sim.World) 1 (Sim.runnerOf [])
                   (Sim.plainSuite "F") (Sim.start Sim.cancelSubmitWorld) zeroRunner
                   (Some (wrapError "Post /runs" Canceled)) _ _ _ _ _)).
  - eexists _, _. split; [vm_compute; reflexivity|].
    split; [vm_compute; reflexivity|reflexivity].
  - vm_compute. intros Hnone. discriminate Hnone.
  - reflexivity.
  - reflexivity.
Defined.

Lemma attempt_passes_only_on_succeeded_witness :
  ∃ (run : Runner) (st' : State Sim.World),
    runSuite 3 (Sim.runnerOf []) (Sim.plainSuite "A") (Sim.start Sim.successWorld)
      = Some ((run, None), st') ∧
    Status run = StateSucceeded.
Proof.
  eexists _, _. split; [vm_compute; reflexivity|].
  refine (proj1 (attempt_passes_only_on_succeeded (W := Sim.World) 3 (Sim.runnerOf [])
                   (Sim.plainSuite "A") (Sim.start Sim.successWorld) _ _ _)).
  vm_compute. reflexivity.
Defined.

Lemma stop_only_after_expiry_witness :
  ∃ (run : Runner) (e : option error) (st' : State Sim.World),
    runSuite 3 (Sim.runnerOf []) (Sim.plainSuite "E") (Sim.start Sim.expiryWorld)
      = Some ((run, e), st') ∧
    Status run = StateCancelled ∧
    (e = Some (SuiteTimeoutError (attemptTimeout (Sim.plainSuite "E")))
       ∨ e = Some ErrSuiteCancelled).
Proof.
  edestruct (stop_only_after_expiry (W := Sim.World) 3 (Sim.runnerOf [])
               (Sim.plainSuite "E") (Sim.start Sim.expiryWorld)) as (Hs & He & _).
  - vm_compute. reflexivity.
  - vm_compute. reflexivity.
  - vm_compute. intros Hz. discriminate Hz.
  - eexists _, _, _. split; [vm_compute; reflexivity|]. split; [exact Hs|exact He].
Defined.

Lemma attempt_contexts_witness :
  0 < attemptTimeout (Sim.plainSuite "E") ∧
  attemptTimeout (Sim.plainSuite "E") = 24 * Hour.
Proof.
  edestruct (attempt_contexts (W := Sim.World) 3 (Sim.runnerOf [])
               (Sim.plainSuite "E") (Sim.start Sim.expiryWorld)) as (Hpos & _ & Hday & _).
  - vm_compute. reflexivity.
  - vm_compute. reflexivity.
  - split; [exact Hpos|]. apply Hday. vm_compute. intros Hgt. discriminate Hgt.
Defined.

Lemma exit_zero_means_all_succeeded_witness :
  ∃ s : @Sys Sim.World,
    RunProject_sys 3 (rounds 3)
      (Sim.runnerOf [Sim.plainSuite "A"; Sim.plainSuite "B"; Sim.plainSuite "C"])
      Sim.successWorld = Some s ∧
    length (received s) = 3%nat ∧
    Forall (λ res, status res = StateSucceeded ∧ attempts res = 1 ∧ err res = None)
           (received s).
Proof.
  apply (exit_zero_means_all_succeeded (W := Sim.World) 3 (rounds 3)
           (Sim.runnerOf [Sim.plainSuite "A"; Sim.plainSuite "B"; Sim.plainSuite "C"])
           Sim.successWorld).
  vm_compute. reflexivity.
Defined.

Lemma zero_defaults_change_nothing_witness :
  applyDefaults Sim.noDefaults Sim.fileSuite
    = {| Name := "S"; Image := "img"; ImagePullAuth := {| User := ""; Token := "" |};
         EntryPoint := ""; Timeout := 0;
         Files := [{| Src := "test.js"; Dst := "/test.js" |}]; Artifacts := [];
         Env := Some (default ∅ None) |}.
Proof.
  exact (zero_defaults_change_nothing Sim.noDefaults Sim.fileSuite
           eq_refl eq_refl eq_refl eq_refl eq_refl eq_refl eq_refl eq_refl).
Defined.

Lemma reporters_see_every_result_witness :
  ∃ (x : bool * list execResult) (st' : State Sim.World),
    collectResults (Sim.runnerOf []) [Sim.okResult; Sim.okResult] 1 (Sim.start Sim.quiet)
      = Some (x, st') ∧
    reports st'
      = [ReporterAdd 0%nat (testResultOf Sim.okResult); ReporterRender 0%nat].
Proof.
  apply (reporters_see_every_result (W := Sim.World) (Sim.runnerOf [])
           [Sim.okResult; Sim.okResult] 1 (Sim.start Sim.quiet)).
  vm_compute. lia.
Defined.

Lemma aggregator_calls_witness :
  ∃ (st' : State Sim.World) (new : list Call),
    collect_one Sim.artifactRunner Sim.okResult true (Sim.start Sim.successWorld)
      = Some (true, st') ∧
    calls st' = calls (Sim.start Sim.successWorld) ++ new ∧
    count_calls is_TriggerRun new = 0%nat ∧ count_calls is_StopRun new = 0%nat.
Proof.
  edestruct (aggregator_calls (W := Sim.World) Sim.artifactRunner Sim.okResult true true
               (Sim.start Sim.successWorld)) as (new & Hc & _ & Ht & Hs).
  - vm_compute. reflexivity.
  - eexists _, new. split; [vm_compute; reflexivity|]. split; [exact Hc|]. by split.
Defined.

Lemma submissions_bounded_witness :
  ∃ s : @Sys Sim.World,
    RunProject_sys 5 [GoSubmit; GoWorker 0; GoWorker 0]
      (Sim.runnerOf [Sim.plainSuite "D"]) Sim.retryWorld = Some s ∧
    (count_calls is_TriggerRun (calls (state s)) ≤ length (taken s))%nat.
Proof.
  eexists. split; [vm_compute; reflexivity|].
  refine (proj1 (submissions_bounded (W := Sim.World) 5 [GoSubmit; GoWorker 0; GoWorker 0]
                   (Sim.runnerOf [Sim.plainSuite "D"]) Sim.retryWorld _ _)).
  vm_compute. reflexivity.
Defined.

Lemma empty_project_passes_witness :
  RunProject 0 [GoWorker 0; GoMain] (Sim.runnerOf []) Sim.quiet = Some (0, None).
Proof.
  refine (proj1 (proj1 (empty_project_passes (W := Sim.World) 0 [GoWorker 0; GoMain]
                          (Sim.runnerOf []) Sim.quiet eq_refl) _)).
  apply list_elem_of_In. simpl. right. left. reflexivity.
Defined.
